(** * sw: an SSH address book kept in one JSON file

    A shallow embedding of [sw.py] and the properties of its commands.

    The program is a chain of decorators around small command bodies, and
    what it does is decided by how Python binds the arguments of each call
    ([*args], [**kwargs], keyword-only parameters, a keyword given twice).
    The embedding therefore keeps Python's calling convention: a callable
    takes a list of positional values and a list of keyword values, and
    binding them to a signature can raise [TypeError].

    Effects are explicit.  A computation runs in a state-and-exception
    monad over a [world] made of the files of the machine and the
    chronological list of what the process printed and which shell commands
    it started.  What was done before an exception stays done.

    The program stands on a [Runtime]: what a path holds, how opening it
    to read or to write ends, what a shell command does to the files, and
    which exception [json.loads] raises.  Most statements are about the
    runtime [text_files], where every file is a text that is read and
    rewritten without error and a shell command changes no file.  The
    statements on loading and on saving are about a [disk], where a path can
    hold bytes that are no text, a directory, or a file that may not be
    read; the statement on the files that the program changes is about
    every runtime.  What [main] does on text files it does on a disk whose
    files hold texts (section Simulation).

    Parameters ([Platform]): the [json] module, [os.path.expanduser] and
    the [repr] of containers.  The reference platform writes the three out
    for the values of the model, a string being the UTF-8 encoding of a
    [str].  Outside the model: floating point, so that JSON numbers are the
    integers and a file with a fraction or an exponent in it is not decoded
    as Python decodes it; the depth at which [json.loads] gives up; what
    the shell and [ssh] print, and their exit status. *)

From stdpp Require Import base strings list gmap pretty.

Open Scope string_scope.
Open Scope list_scope.

(** ** Python values *)

#[local] Set Warnings "-register-all".
#[local] Unset Elimination Schemes.

(** The values a JSON document decodes to, which are also the values the
    program computes with.  A [PyDict] keeps its entries in insertion
    order. *)
Inductive pyval :=
  | PyNone
  | PyBool (b : bool)
  | PyInt (n : Z)
  | PyStr (s : string)
  | PyList (l : list pyval)
  | PyDict (d : list (pyval * pyval)).
#[local] Set Elimination Schemes.

(** Python's [==]: [True == 1], lists compare pointwise, dicts compare as
    finite maps. *)
Fixpoint py_eq (a b : pyval) {struct a} : bool :=
  match a, b with
  | PyNone, PyNone => true
  | PyBool x, PyBool y => Bool.eqb x y
  | PyBool x, PyInt n | PyInt n, PyBool x => Z.eqb n (Z.b2z x)
  | PyInt n, PyInt m => Z.eqb n m
  | PyStr s, PyStr t => String.eqb s t
  | PyList l, PyList m =>
      (fix all2 (l m : list pyval) : bool :=
         match l, m with
         | [], [] => true
         | x :: l', y :: m' => py_eq x y && all2 l' m'
         | _, _ => false
         end) l m
  | PyDict d, PyDict e =>
      Nat.eqb (length d) (length e) &&
      (fix each (d : list (pyval * pyval)) : bool :=
         match d with
         | [] => true
         | (k, v) :: d' =>
             (fix find (e : list (pyval * pyval)) : bool :=
                match e with
                | [] => false
                | (k', v') :: e' => if py_eq k k' then py_eq v v' else find e'
                end) e && each d'
         end) d
  | _, _ => false
  end.

Definition hashable (v : pyval) : bool :=
  match v with
  | PyList _ | PyDict _ => false
  | _ => true
  end.

(** [bool(v)] *)
Definition py_truthy (v : pyval) : bool :=
  match v with
  | PyNone => false
  | PyBool b => b
  | PyInt n => negb (Z.eqb n 0)
  | PyStr s => negb (String.eqb s EmptyString)
  | PyList l => negb (Nat.eqb (length l) 0)
  | PyDict d => negb (Nat.eqb (length d) 0)
  end.

(** ** Dictionaries

    Entries in insertion order, keys compared with [==]. *)

Fixpoint dict_get (k : pyval) (d : list (pyval * pyval)) : option pyval :=
  match d with
  | [] => None
  | (k', v) :: d' => if py_eq k k' then Some v else dict_get k d'
  end.

(** [d[k] = v]: an existing key keeps its place, a new one goes last. *)
Fixpoint dict_set (k v : pyval) (d : list (pyval * pyval)) : list (pyval * pyval) :=
  match d with
  | [] => [(k, v)]
  | (k', v') :: d' => if py_eq k k' then (k', v) :: d' else (k', v') :: dict_set k v d'
  end.

Fixpoint dict_del (k : pyval) (d : list (pyval * pyval)) : list (pyval * pyval) :=
  match d with
  | [] => []
  | (k', v) :: d' => if py_eq k k' then d' else (k', v) :: dict_del k d'
  end.

(** [d.update(e)] *)
Definition dict_update (d e : list (pyval * pyval)) : list (pyval * pyval) :=
  foldl (λ acc kv, dict_set kv.1 kv.2 acc) d e.

Definition dict_has (k : pyval) (d : list (pyval * pyval)) : bool :=
  bool_decide (is_Some (dict_get k d)).

(** ** Exceptions *)

Inductive type_error :=
  | MultipleValues (name : string)      (* got multiple values for (keyword) argument *)
  | UnexpectedKeyword (name : string)   (* got an unexpected keyword argument *)
  | TooManyPositional                   (* takes n positional arguments but m were given *)
  | MissingArguments (names : list string)   (* missing required positional arguments *)
  | MissingKwOnly (names : list string)      (* missing required keyword-only arguments *)
  | Unhashable                          (* unhashable type *)
  | NotIterable                         (* argument of type ... is not iterable *)
  | NotSubscriptable                    (* object is not subscriptable *)
  | NoItemAssignment                    (* object does not support item assignment *)
  | BadIndex                            (* indices must be integers *)
  | BadOperand                          (* 'in <string>' requires string as left operand *)
  | NotAMapping                         (* object is not a mapping *)
  | BadPath.                            (* expected str, bytes or os.PathLike object *)

Inductive exn :=
  | TypeError (why : type_error)
  | KeyError (key : pyval)
  | IndexError
  | AttributeError (attr : string)
  | JSONDecodeError
  | RecursionError
  | UnicodeDecodeError
  | FileNotFoundError (path : string)
  | IsADirectoryError
  | PermissionError
  | OSError
  | SystemExit.

(** ** The world and the monad *)

Inductive event :=
  | Stdout (line : string)       (* print(line) *)
  | Subprocess (cmd : string).   (* subprocess.run(cmd, shell=True) *)

(** How a computation ends. *)
Inductive outcome (A : Type) :=
  | Ok (a : A)
  | Raise (e : exn).
Arguments Ok {A} a.
Arguments Raise {A} e.

(** What the program stands on: what a path of the file system holds
    (a [node]), what opening it for reading and reading it as UTF-8 gives,
    what opening it for writing and writing a text leaves behind, what a
    command line handed to the shell does to the files, and the exception
    that [json.loads] raises on a text it does not decode. *)
Class Runtime (node : Type) := {
  read_text : node → exn + string;
  write_text : option node → string → exn + node;
  shell : string → gmap string node → gmap string node;
  decode_error : string → exn;
}.

Section Machine.
Context {node : Type} {machine : Runtime node}.

Record world := World {
  files : gmap string node;      (* path ↦ what is there *)
  events : list event;           (* oldest first *)
}.

Definition M (A : Type) : Type := world → outcome A * world.

#[global] Instance M_ret : MRet M := λ A a w, (Ok a, w).

#[global] Instance M_bind : MBind M := λ A B f m w,
  match m w with
  | (Ok a, w') => f a w'
  | (Raise e, w') => (Raise e, w')
  end.

Definition raise {A} (e : exn) : M A := λ w, (Raise e, w).

Definition lift {A} (r : exn + A) : M A :=
  match r with
  | inl e => raise e
  | inr a => mret a
  end.

(** [try: m except <classes>: handler] *)
Definition try_except {A} (m : M A) (caught : exn → bool) (handler : M A) : M A := λ w,
  match m w with
  | (Raise e, w') => if caught e then handler w' else (Raise e, w')
  | r => r
  end.

Definition emit (e : event) : M unit := λ w,
  (Ok (), {| files := files w; events := (events w ++ [e]) |}).

Definition print (line : string) : M unit := emit (Stdout line).

(** [subprocess.run(cmd, shell=True)]: the shell runs the command line,
    and the call returns whatever the exit status. *)
Definition subprocess_run (cmd : string) : M unit := λ w,
  (Ok (), {| files := shell cmd (files w); events := (events w ++ [Subprocess cmd]) |}).

(** [with open(path, 'r', encoding='utf-8') as f: f.read()] *)
Definition open_read (path : string) : M string := λ w,
  match files w !! path with
  | Some f => (match read_text f with inl e => Raise e | inr text => Ok text end, w)
  | None => (Raise (FileNotFoundError path), w)
  end.

(** [with open(path, 'w+', encoding='utf-8') as f: f.write(text)] *)
Definition open_write (path text : string) : M unit := λ w,
  match write_text (files w !! path) text with
  | inr f => (Ok (), {| files := <[path := f]> (files w); events := events w |})
  | inl e => (Raise e, w)
  end.

Fixpoint for_each {A} (l : list A) (body : A → M unit) : M unit :=
  match l with
  | [] => mret ()
  | x :: l' => body x;; for_each l' body
  end.

(** ** Operators on values *)

(** [t in s] for two strings: [t] occurs in [s]. *)
Fixpoint is_substring (t s : string) : bool :=
  String.prefix t s ||
  match s with
  | EmptyString => false
  | String _ s' => is_substring t s'
  end.

(** The place a (possibly negative) index designates in a sequence of
    length [len]. *)
Definition seq_index (i : Z) (len : nat) : option nat :=
  let j := (if Z.ltb i 0 then i + Z.of_nat len else i)%Z in
  if Z.leb 0 j && Z.ltb j (Z.of_nat len) then Some (Z.to_nat j) else None.

(** What [operator.index] makes of a value. *)
Definition as_index (v : pyval) : option Z :=
  match v with
  | PyInt i => Some i
  | PyBool b => Some (Z.b2z b)
  | _ => None
  end.

Definition string_nth (n : nat) (s : string) : option string :=
  (λ c, String c EmptyString) <$> String.get n s.

(** [x in c] *)
Definition py_in (x c : pyval) : exn + bool :=
  match c with
  | PyDict d => if hashable x then inr (dict_has x d) else inl (TypeError Unhashable)
  | PyList l => inr (existsb (py_eq x) l)
  | PyStr s =>
      match x with
      | PyStr t => inr (is_substring t s)
      | _ => inl (TypeError BadOperand)
      end
  | _ => inl (TypeError NotIterable)
  end.

(** [c[k]] *)
Definition py_getitem (c k : pyval) : exn + pyval :=
  match c with
  | PyDict d =>
      if hashable k then
        match dict_get k d with
        | Some v => inr v
        | None => inl (KeyError k)
        end
      else inl (TypeError Unhashable)
  | PyList l =>
      match as_index k with
      | Some i =>
          match seq_index i (length l) ≫= (l !!.) with
          | Some v => inr v
          | None => inl IndexError
          end
      | None => inl (TypeError BadIndex)
      end
  | PyStr s =>
      match as_index k with
      | Some i =>
          match seq_index i (String.length s) ≫= (λ n, string_nth n s) with
          | Some c => inr (PyStr c)
          | None => inl IndexError
          end
      | None => inl (TypeError BadIndex)
      end
  | _ => inl (TypeError NotSubscriptable)
  end.

(** [c[k] = v].  The program holds one reference to the container it
    updates, so the update in place is the container that results. *)
Definition py_setitem (c k v : pyval) : exn + pyval :=
  match c with
  | PyDict d =>
      if hashable k then inr (PyDict (dict_set k v d)) else inl (TypeError Unhashable)
  | PyList l =>
      match as_index k with
      | Some i =>
          match seq_index i (length l) with
          | Some n => inr (PyList (<[n := v]> l))
          | None => inl IndexError
          end
      | None => inl (TypeError BadIndex)
      end
  | _ => inl (TypeError NoItemAssignment)
  end.

(** [c.pop(k)], the value popped being dropped. *)
Definition py_pop (c k : pyval) : exn + pyval :=
  match c with
  | PyDict d =>
      if hashable k then
        match dict_get k d with
        | Some _ => inr (PyDict (dict_del k d))
        | None => inl (KeyError k)
        end
      else inl (TypeError Unhashable)
  | PyList l =>
      match as_index k with
      | Some i =>
          match seq_index i (length l) with
          | Some n => inr (PyList (delete n l))
          | None => inl IndexError
          end
      | None => inl (TypeError BadIndex)
      end
  | _ => inl (AttributeError "pop")
  end.

(** [c.items()] *)
Definition py_items (c : pyval) : exn + list (pyval * pyval) :=
  match c with
  | PyDict d => inr d
  | _ => inl (AttributeError "items")
  end.

(** The dict display [{**a, **b}]: a new dict that receives the entries of
    [a], then those of [b]. *)
Definition py_merge (a b : pyval) : exn + pyval :=
  match a, b with
  | PyDict d, PyDict e => inr (PyDict (dict_update (dict_update [] d) e))
  | _, _ => inl (TypeError NotAMapping)
  end.

(** ** Calling convention *)

Definition kwargs := list (string * pyval).

(** A callable: positional values, then keyword values in the order given. *)
Definition pyfun := list pyval → kwargs → M pyval.

(** The first keyword that repeats an earlier one. *)
Fixpoint repeated_keyword (seen : list string) (kws : kwargs) : option string :=
  match kws with
  | [] => None
  | (k, _) :: kws' =>
      if bool_decide (k ∈ seen) then Some k else repeated_keyword (k :: seen) kws'
  end.

(** A call whose keywords come from more than one place, a [**kwargs]
    unpacking and explicit [name=value] pairs: the interpreter merges them
    before the callee runs, and a name given twice is a [TypeError]. *)
Definition call (fn : pyfun) (args : list pyval) (kws : kwargs) : M pyval :=
  match repeated_keyword [] kws with
  | Some k => raise (TypeError (MultipleValues k))
  | None => fn args kws
  end.

(** [def f(p1, ..., pn, *args, k1, ..., km, **kwargs)] *)
Record signature := Signature {
  pos_params : list string;
  var_args : bool;
  kwonly_params : list string;
  var_kw : bool;
}.

(** The local variables of a call once its arguments are bound. *)
Record frame := Frame {
  locals : list (string * pyval);
  star_args : list pyval;
  star_kwargs : kwargs;
}.

Definition bound (x : string) (vars : list (string * pyval)) : bool :=
  bool_decide (x ∈ vars.*1).

(** One keyword argument: it fills the parameter of its name, which must be
    free, or goes to [**kwargs]. *)
Definition bind_keyword (sg : signature) (st : exn + list (string * pyval) * kwargs)
    (kv : string * pyval) : exn + list (string * pyval) * kwargs :=
  match st with
  | inl e => inl e
  | inr (vars, extra) =>
      if bool_decide (kv.1 ∈ (pos_params sg ++ kwonly_params sg)) then
        if bound kv.1 vars then inl (TypeError (MultipleValues kv.1))
        else inr ((vars ++ [kv]), extra)
      else if var_kw sg then inr (vars, (extra ++ [kv]))
      else inl (TypeError (UnexpectedKeyword kv.1))
  end.

(** Argument binding, in the interpreter's order: positional values fill
    the positional parameters from the left and the surplus goes to
    [*args]; keywords are bound one by one; then a surplus without [*args]
    is reported, then the positional parameters left empty, then the
    keyword-only ones. *)
Definition bind (sg : signature) (args : list pyval) (kws : kwargs) : exn + frame :=
  let n := length (pos_params sg) in
  match foldl (bind_keyword sg) (inr (zip (pos_params sg) args, [])) kws with
  | inl e => inl e
  | inr (vars, extra) =>
      if negb (var_args sg) && negb (Nat.leb (length args) n) then
        inl (TypeError TooManyPositional)
      else
        match filter (λ p, ¬ bound p vars) (pos_params sg),
              filter (λ p, ¬ bound p vars) (kwonly_params sg) with
        | [], [] => inr {| locals := vars; star_args := drop n args; star_kwargs := extra |}
        | [], missing => inl (TypeError (MissingKwOnly missing))
        | missing, _ => inl (TypeError (MissingArguments missing))
        end
  end.

Fixpoint assoc (x : string) (vars : list (string * pyval)) : option pyval :=
  match vars with
  | [] => None
  | (y, v) :: vars' => if String.eqb x y then Some v else assoc x vars'
  end.

(** A local variable; binding leaves no parameter unset. *)
Definition var (fr : frame) (x : string) : pyval :=
  default PyNone (assoc x (locals fr)).

(** [def name(<signature>): body] *)
Definition def (sg : signature) (body : frame → M pyval) : pyfun := λ args kws,
  fr ← lift (bind sg args kws); body fr.

(** [def f(p1, ..., pn)] *)
Definition params (ps : list string) : signature :=
  {| pos_params := ps; var_args := false; kwonly_params := []; var_kw := false |}.

(** ** The platform

    What the program takes from its interpreter and its environment. *)
Class Platform := {
  home : string;                        (* path.expanduser('~') *)
  json_loads : string → option pyval;   (* None: json.loads raises *)
  json_dumps : pyval → string;
  py_repr : pyval → string;             (* str() of a list or of a dict *)
}.

Definition TAB : string := String (Ascii.ascii_of_nat 9) EmptyString.

(** [s.endswith(suffix)] *)
Fixpoint ends_with (suffix s : string) : bool :=
  String.eqb s suffix ||
  match s with
  | EmptyString => false
  | String _ s' => ends_with suffix s'
  end.

(** [os.path.join(a, b)] *)
Definition path_join (a b : string) : string :=
  if String.prefix "/" b then b
  else if String.eqb a EmptyString || ends_with "/" a then a +:+ b
  else a +:+ "/" +:+ b.

(** ** The program *)

Section Program.
Context {platform : Platform}.

(** What ['{0}'.format(v)] puts in place of [{0}]. *)
Definition py_format (v : pyval) : string :=
  match v with
  | PyStr s => s
  | PyNone => "None"
  | PyBool true => "True"
  | PyBool false => "False"
  | PyInt n => pretty n
  | _ => py_repr v
  end.

(** [open(path, 'r', encoding='utf-8')] on a value: a string names a
    file, an integer a descriptor (the model has none open). *)
Definition open_read_at (path : pyval) : M string :=
  match path with
  | PyStr p => open_read p
  | PyInt _ | PyBool _ => raise OSError
  | _ => raise (TypeError BadPath)
  end.

Definition VERSION : string := "0.2.0".
Definition DATA_DIR : string := path_join home ".sw".
Definition KEYRING_PATH : string := path_join DATA_DIR "keyring.json".

Definition save_keyring (keyring : pyval) : M pyval :=
  open_write KEYRING_PATH (json_dumps keyring);;
  mret keyring.

(** The [try] block of [open_keyring_fn]: the keyring a command starts
    from. *)
Definition load_keyring : M pyval :=
  try_except
    (text ← open_read KEYRING_PATH;
     match json_loads text with
     | Some keyring => mret keyring
     | None => raise (decode_error text)
     end)
    (λ e, match e with JSONDecodeError | FileNotFoundError _ => true | _ => false end)
    (mret (PyDict [])).

Definition open_keyring (write : bool) (fn : pyfun) : pyfun := λ args kwargs,
  subprocess_run ("mkdir -p " +:+ DATA_DIR);;
  keyring ← load_keyring;
  result ← call fn args (kwargs ++ [("keyring", keyring)]);
  if write then save_keyring result else mret result.

Definition required_argument_count (min_args : nat) (fn : pyfun) : pyfun := λ args kwargs,
  if Nat.ltb (length args) min_args then
    print ("This action requires " +:+ pretty min_args +:+ " arguments!");;
    mret PyNone
  else fn args kwargs.

(** [def validate_label_fn(label, *args, keyring, **kwargs)] *)
Definition validate_label_fn_signature : signature :=
  {| pos_params := ["label"]; var_args := true;
     kwonly_params := ["keyring"]; var_kw := true |}.

Definition validate_label (exists_ : bool) (fn : pyfun) : pyfun :=
  def validate_label_fn_signature (λ fr,
    let label := var fr "label" in
    let keyring := var fr "keyring" in
    does_exist ← lift (py_in label keyring);
    if Bool.eqb does_exist exists_ then
      call fn (label :: star_args fr) (("keyring", keyring) :: star_kwargs fr)
    else
      (if exists_ then
         print (py_format label +:+ " is not a valid label!")
       else
         print ("The label " +:+ py_format label +:+ " is already registered!"));;
      mret keyring).

(** [print_version] takes any number of positional arguments. *)
Definition print_version : pyfun :=
  def {| pos_params := []; var_args := true; kwonly_params := []; var_kw := false |}
    (λ _, print VERSION;; mret PyNone).

(** Each command is a [def], named [_body] here, under its decorators;
    the command's own name is that of the decorated function, as in the
    source. *)

Definition list_keys_body : pyfun :=
  def (params ["keyring"]) (λ fr,
    let keyring := var fr "keyring" in
    print ("LABEL" +:+ TAB +:+ "ADDRESS");;
    items ← lift (py_items keyring);
    for_each items (λ '(key, addr),
      print (py_format key +:+ TAB +:+ py_format addr));;
    mret keyring).

Definition list_keys : pyfun := open_keyring false list_keys_body.

Definition add_key_body : pyfun :=
  def (params ["label"; "addr"; "keyring"]) (λ fr,
    let label := var fr "label" in
    let addr := var fr "addr" in
    let keyring := var fr "keyring" in
    keyring ← lift (py_setitem keyring label addr);
    mret keyring).

Definition add_key : pyfun :=
  open_keyring true (validate_label false (required_argument_count 2 add_key_body)).

Definition remove_key_body : pyfun :=
  def (params ["label"; "keyring"]) (λ fr,
    let label := var fr "label" in
    let keyring := var fr "keyring" in
    keyring ← lift (py_pop keyring label);
    mret keyring).

Definition remove_key : pyfun :=
  open_keyring true (validate_label true (required_argument_count 1 remove_key_body)).

(** The two calls pass the caller's keyring by keyword to functions that
    [open_keyring] decorates.  The first of them raises before its callee
    runs ([add_key_given_keyring] below), so what a callee would do to the
    dict it shares with its caller never comes into play. *)
Definition rename_key_body : pyfun :=
  def (params ["label"; "new_label"; "keyring"]) (λ fr,
    let label := var fr "label" in
    let new_label := var fr "new_label" in
    let keyring := var fr "keyring" in
    addr ← lift (py_getitem keyring label);
    added ← call add_key [new_label; addr] [("keyring", keyring)];
    if negb (py_truthy added) then mret keyring
    else
      removed ← call remove_key [label] [("keyring", keyring)];
      if negb (py_truthy removed) then mret keyring
      else mret keyring).

Definition rename_key : pyfun :=
  open_keyring true (required_argument_count 2 rename_key_body).

Definition ssh_connect_body : pyfun :=
  def (params ["label"; "keyring"]) (λ fr,
    let label := var fr "label" in
    let keyring := var fr "keyring" in
    addr ← lift (py_getitem keyring label);
    print ("Connecting to " +:+ py_format addr +:+ "...");;
    addr ← lift (py_getitem keyring label);
    subprocess_run ("ssh " +:+ py_format addr);;
    print "ssh session finished";;
    mret keyring).

Definition ssh_connect : pyfun :=
  open_keyring true (validate_label true (required_argument_count 1 ssh_connect_body)).

Definition ssh_run_body : pyfun :=
  def (params ["label"; "command"; "keyring"]) (λ fr,
    let label := var fr "label" in
    let command := var fr "command" in
    let keyring := var fr "keyring" in
    addr ← lift (py_getitem keyring label);
    print ("Connecting to " +:+ py_format addr +:+ "...");;
    addr ← lift (py_getitem keyring label);
    subprocess_run ("ssh -t " +:+ py_format addr +:+ " " +:+ py_format command);;
    print "ssh session finished";;
    mret keyring).

Definition ssh_run : pyfun :=
  open_keyring true (validate_label true (required_argument_count 2 ssh_run_body)).

Definition export_keyring_body : pyfun :=
  def (params ["keyring"]) (λ fr,
    let keyring := var fr "keyring" in
    print (json_dumps keyring);;
    mret keyring).

Definition export_keyring : pyfun := open_keyring false export_keyring_body.

(** Its parameters are [keyring], then [filepath]. *)
Definition import_keyring_body : pyfun :=
  def (params ["keyring"; "filepath"]) (λ fr,
    let keyring := var fr "keyring" in
    let filepath := var fr "filepath" in
    print "Merging current keyring and external keyring...";;
    text ← open_read_at filepath;
    new_keys ← lift (from_option inr (inl (decode_error text)) (json_loads text));
    lift (py_merge keyring new_keys)).

Definition import_keyring : pyfun :=
  open_keyring true (required_argument_count 1 import_keyring_body).

Definition commands : list (string * pyfun) :=
  [ ("version", print_version);
    ("list", list_keys);
    ("add", add_key);
    ("rename", rename_key);
    ("remove", remove_key);
    ("connect", ssh_connect);
    ("export", export_keyring);
    ("import", import_keyring);
    ("run", ssh_run) ].

Definition print_usage : M unit :=
  print "USAGE: sw COMMAND";;
  print EmptyString;;
  print "Possible commands:";;
  print EmptyString;;
  print "sw version";;
  print "sw list";;
  print "sw add       LABEL   ADDR";;
  print "sw rename    LABEL   NEWLABEL";;
  print "sw remove    LABEL";;
  print "sw connect   LABEL";;
  print "sw run       LABEL   COMMAND";;
  print "sw export";;
  print "sw import    FILE".

(** [exit()] *)
Definition exit : M pyval := raise SystemExit.

Fixpoint lookup_command (command : string) (table : list (string * pyfun)) : option pyfun :=
  match table with
  | [] => None
  | (name, fn) :: table' =>
      if String.eqb command name then Some fn else lookup_command command table'
  end.

(** [main], with [sys.argv] made a parameter. *)
Definition main (argv : list string) : M pyval :=
  if Nat.eqb (length argv) 1 then print_usage;; exit
  else
    command ← lift (from_option inr (inl IndexError) (argv !! 1%nat));
    match lookup_command command commands with
    | None => print_usage;; exit
    | Some fn => fn (PyStr <$> drop 2 argv) [];; mret PyNone
    end.

(** *** Vocabulary of the statements *)

(** [w] after the process has printed or started [es]. *)
Definition logged (es : list event) (w : world) : world :=
  {| files := files w; events := (events w ++ es) |}.

(** The first thing every decorated command does. *)
Definition mkdir : event := Subprocess ("mkdir -p " +:+ DATA_DIR).

(** The commands under [validate_label]. *)
Inductive guarded := CAdd | CRemove | CConnect | CRun.

Definition command_name (c : guarded) : string :=
  match c with CAdd => "add" | CRemove => "remove" | CConnect => "connect" | CRun => "run" end.

Definition command_fn (c : guarded) : pyfun :=
  match c with CAdd => add_key | CRemove => remove_key | CConnect => ssh_connect | CRun => ssh_run end.

(** The argument of [validate_label], of [required_argument_count], and
    the function they decorate. *)
Definition must_exist (c : guarded) : bool :=
  match c with CAdd => false | _ => true end.

Definition min_args (c : guarded) : nat :=
  match c with CAdd | CRun => 2 | CRemove | CConnect => 1 end.

Definition body (c : guarded) : pyfun :=
  match c with
  | CAdd => add_key_body | CRemove => remove_key_body
  | CConnect => ssh_connect_body | CRun => ssh_run_body
  end.

Definition count_message (n : nat) : string :=
  "This action requires " +:+ pretty n +:+ " arguments!".

Definition label_message (exists_ : bool) (label : pyval) : string :=
  if exists_ then py_format label +:+ " is not a valid label!"
  else "The label " +:+ py_format label +:+ " is already registered!".

(** The lines printed, oldest first. *)
Definition printed (w : world) : list string :=
  omap (λ e, match e with Stdout line => Some line | Subprocess _ => None end) (events w).

Definition is_ssh (e : event) : bool :=
  match e with
  | Subprocess cmd => String.prefix "ssh " cmd
  | Stdout _ => false
  end.

(** Between [w] and [w'] the SSH client was started. *)
Definition ssh_started (w w' : world) : bool :=
  existsb is_ssh (drop (length (events w)) (events w')).

(** The lines of [print_usage]. *)
Definition usage_lines : list string :=
  [ "USAGE: sw COMMAND";
    EmptyString;
    "Possible commands:";
    EmptyString;
    "sw version";
    "sw list";
    "sw add       LABEL   ADDR";
    "sw rename    LABEL   NEWLABEL";
    "sw remove    LABEL";
    "sw connect   LABEL";
    "sw run       LABEL   COMMAND";
    "sw export";
    "sw import    FILE" ].

(** The line that [list] prints for an entry. *)
Definition list_line (entry : pyval * pyval) : event :=
  Stdout (py_format entry.1 +:+ TAB +:+ py_format entry.2).

(** The command lines handed to the shell between [w] and [w'], oldest
    first. *)
Definition started (w w' : world) : list string :=
  omap (λ e, match e with Subprocess cmd => Some cmd | Stdout _ => None end)
    (drop (length (events w)) (events w')).

(** A command line that, run by the shell, leaves [path] as it is. *)
Definition spares (path cmd : string) : Prop :=
  ∀ fs, shell cmd fs !! path = fs !! path.

(** The command lines the program hands to the shell. *)
Definition own_command (cmd : string) : Prop :=
  cmd = "mkdir -p " +:+ DATA_DIR ∨ String.prefix "ssh " cmd = true.

(** [m] only adds to the events, starts no command of its own invention,
    and writes [path] through the shell or not at all: when the commands it
    started spare [path], [path] holds after [m] what it held before. *)
Definition confined (path : string) {A} (m : M A) : Prop :=
  ∀ w, ∃ es,
    events (m w).2 = events w ++ es ∧
    Forall (λ e, match e with Subprocess cmd => own_command cmd | Stdout _ => True end) es ∧
    (Forall (λ e, match e with Subprocess cmd => spares path cmd | Stdout _ => True end) es →
     files (m w).2 !! path = files w !! path).

End Program.

End Machine.

(** ** Text files

    The machine of most statements: every file is a text that can be read
    and rewritten, a shell command changes no file, and [json.loads]
    raises [JSONDecodeError] when it raises. *)
#[global] Instance text_files : Runtime string :=
  {| read_text := inr;
     write_text := λ _ text, inr text;
     shell := λ _ fs, fs;
     decode_error := λ _, JSONDecodeError |}.

Section TextFiles.
Context `{Platform}.

(** The keyring a command starts from when the files are those of [w]. *)
Definition stored_keyring (w : @world string) : pyval :=
  match files w !! KEYRING_PATH with
  | Some text => default (PyDict []) (json_loads text)
  | None => PyDict []
  end.

(** [w] after the keyring file has been rewritten to hold [keyring]. *)
Definition saved (keyring : pyval) (w : @world string) : @world string :=
  {| files := <[KEYRING_PATH := json_dumps keyring]> (files w); events := events w |}.

End TextFiles.

(** ** UTF-8

    A [str] is modelled by the bytes that encode its code points in UTF-8,
    a surrogate being encoded like any other code point of its size.  The
    keyring file is opened with [encoding='utf-8']: reading it succeeds on
    the bytes that encode a text without surrogates. *)
Module Utf8.

Definition byte (c : Ascii.ascii) : N := Ascii.N_of_ascii c.

Definition char (n : N) : Ascii.ascii := Ascii.ascii_of_N n.

Definition continuation (c : Ascii.ascii) : bool :=
  N.leb 128 (byte c) && N.leb (byte c) 191.

(** The code point encoded at the head of [s], and what follows it.  An
    encoding longer than the code point needs is none. *)
Definition decode (s : string) : option (N * string) :=
  match s with
  | EmptyString => None
  | String a s1 =>
      if N.ltb (byte a) 128 then Some (byte a, s1)
      else
        match s1 with
        | String b s2 =>
            if continuation b then
              if N.leb 194 (byte a) && N.leb (byte a) 223 then
                Some (((byte a - 192) * 64 + (byte b - 128))%N, s2)
              else
                match s2 with
                | String c s3 =>
                    if continuation c then
                      if N.leb 224 (byte a) && N.leb (byte a) 239 then
                        let n := ((byte a - 224) * 4096 + (byte b - 128) * 64
                                  + (byte c - 128))%N in
                        if N.leb 2048 n then Some (n, s3) else None
                      else
                        match s3 with
                        | String d s4 =>
                            if continuation d && N.leb 240 (byte a) && N.leb (byte a) 244 then
                              let n := ((byte a - 240) * 262144 + (byte b - 128) * 4096
                                        + (byte c - 128) * 64 + (byte d - 128))%N in
                              if N.leb 65536 n && N.leb n 1114111 then Some (n, s4) else None
                            else None
                        | EmptyString => None
                        end
                    else None
                | EmptyString => None
                end
            else None
        | EmptyString => None
        end
  end.

(** The bytes of a code point. *)
Definition encode (n : N) : string :=
  if N.ltb n 128 then String (char n) EmptyString
  else if N.ltb n 2048 then
    String (char (192 + n / 64)) (String (char (128 + n mod 64)) EmptyString)
  else if N.ltb n 65536 then
    String (char (224 + n / 4096))
      (String (char (128 + (n / 64) mod 64)) (String (char (128 + n mod 64)) EmptyString))
  else
    String (char (240 + n / 262144))
      (String (char (128 + (n / 4096) mod 64))
         (String (char (128 + (n / 64) mod 64)) (String (char (128 + n mod 64)) EmptyString))).

Definition surrogate (n : N) : bool := N.leb 55296 n && N.leb n 57343.

(** The code points of a string.  A byte that is part of no encoding is
    counted as the surrogate U+DC00 + byte, which is what the interpreter
    makes of such a byte in an argument of the command line; no text has
    one. *)
Fixpoint points_from (fuel : nat) (s : string) : list N :=
  match fuel, s with
  | S fuel', String a s1 =>
      match decode s with
      | Some (n, rest) => n :: points_from fuel' rest
      | None => (56320 + byte a)%N :: points_from fuel' s1
      end
  | _, _ => []
  end.

Definition points (s : string) : list N := points_from (String.length s) s.

(** The bytes are the UTF-8 encoding of a text: the strict decoder of
    [open(..., encoding='utf-8')] accepts them. *)
Definition text (s : string) : bool :=
  forallb (λ n, negb (surrogate n)) (points s).

(** Every byte is an ASCII character. *)
Fixpoint ascii (s : string) : bool :=
  match s with
  | EmptyString => true
  | String c s' => N.ltb (byte c) 128 && ascii s'
  end.

End Utf8.

(** ** Files on a disk

    A machine on which not every file is a text: a path holds the bytes of
    a regular file, a directory, or a file that the user may neither read
    nor write.  What is written is the encoding of [json.dumps], which is
    ASCII. *)
Inductive file :=
  | Regular (bytes : string)
  | Directory
  | Locked.

Definition disk (raises : string → exn)
    (sh : string → gmap string file → gmap string file) : Runtime file :=
  {| read_text f :=
       match f with
       | Regular bytes => if Utf8.text bytes then inr bytes else inl UnicodeDecodeError
       | Directory => inl IsADirectoryError
       | Locked => inl PermissionError
       end;
     write_text old text :=
       match old with
       | Some Directory => inl IsADirectoryError
       | Some Locked => inl PermissionError
       | Some (Regular _) | None => inr (Regular text)
       end;
     shell := sh;
     decode_error := raises |}.

(** A disk under a shell that changes no file, on which [json.loads]
    raises [JSONDecodeError] when it raises. *)
Definition quiet_disk : Runtime file := disk (λ _, JSONDecodeError) (λ _ fs, fs).




(** ** A reference platform

    The [json] module as the program uses it, [json.dumps(v)] and
    [json.loads(text)] with their default options, written out for the values
    of the model: [ensure_ascii] escapes, surrogate pairs, the separators
    [", "] and [": "], keys that are not strings converted, a repeated key
    keeping its first place and its last value, control characters refused
    in strings.  Most theorems hold for every [Platform]; this one makes
    them run on concrete files, and the round trip of the keyring is proved
    of it. *)
Module Json.

Definition chr (n : nat) : string := String (Ascii.ascii_of_nat n) EmptyString.

Definition QUOTE_CHAR : Ascii.ascii := Ascii.ascii_of_nat 34.
Definition QUOTE : string := String QUOTE_CHAR EmptyString.
Definition BACKSLASH : string := chr 92.

(** A hexadecimal digit, in lower case. *)
Definition hex_char (n : N) : Ascii.ascii :=
  default Ascii.zero (String.get (N.to_nat n) "0123456789abcdef").

(** ['{0:04x}'.format(n)] *)
Definition hex4 (n : N) : string :=
  String (hex_char (n / 4096))
    (String (hex_char ((n / 256) mod 16))
       (String (hex_char ((n / 16) mod 16)) (String (hex_char (n mod 16)) EmptyString))).

Definition unicode_escape (n : N) : string := BACKSLASH +:+ "u" +:+ hex4 n.

(** [ensure_ascii=True]: what a code point is written as.  Printable
    ASCII stands for itself, but for the quote and the backslash; a code
    point beyond the basic plane is written as its two surrogates. *)
Definition escape_point (n : N) : string :=
  if N.eqb n 34 then BACKSLASH +:+ QUOTE
  else if N.eqb n 92 then BACKSLASH +:+ BACKSLASH
  else if N.eqb n 10 then BACKSLASH +:+ "n"
  else if N.eqb n 13 then BACKSLASH +:+ "r"
  else if N.eqb n 9 then BACKSLASH +:+ "t"
  else if N.eqb n 12 then BACKSLASH +:+ "f"
  else if N.eqb n 8 then BACKSLASH +:+ "b"
  else if N.leb 32 n && N.leb n 126 then String (Utf8.char n) EmptyString
  else if N.ltb n 65536 then unicode_escape n
  else
    let m := (n - 65536)%N in
    unicode_escape (55296 + m / 1024) +:+ unicode_escape (56320 + m mod 1024).

Definition escape (s : string) : string :=
  foldr String.append EmptyString (escape_point <$> Utf8.points s).

Definition quote (s : string) : string := QUOTE +:+ escape s +:+ QUOTE.

Fixpoint join (sep : string) (l : list string) : string :=
  match l with
  | [] => EmptyString
  | [x] => x
  | x :: l' => x +:+ sep +:+ join sep l'
  end.

(** The entries of a keyring whose labels and addresses are strings. *)
Definition string_entries (entries : list (string * string)) : list (pyval * pyval) :=
  prod_map PyStr PyStr <$> entries.

(** The text of an entry whose key and value are strings. *)
Definition entry_text (e : string * string) : string :=
  quote e.1 +:+ ": " +:+ quote e.2.

(** A key of an object is a string; other scalar keys are converted. *)
Definition dumps_key (k : pyval) : string :=
  match k with
  | PyStr s => quote s
  | PyInt n => quote (pretty n)
  | PyBool true => quote "true"
  | PyBool false => quote "false"
  | _ => quote "null"
  end.

Fixpoint dumps (v : pyval) : string :=
  match v with
  | PyNone => "null"
  | PyBool true => "true"
  | PyBool false => "false"
  | PyInt n => pretty n
  | PyStr s => quote s
  | PyList l => "[" +:+ join ", " (map dumps l) +:+ "]"
  | PyDict d =>
      "{" +:+ join ", " (map (λ kv, dumps_key kv.1 +:+ ": " +:+ dumps kv.2) d) +:+ "}"
  end.

(** *** Decoding *)

Definition code (c : Ascii.ascii) : nat := Ascii.nat_of_ascii c.

Definition is_ws (c : Ascii.ascii) : bool :=
  bool_decide (code c ∈ [32; 9; 10; 13]).

Fixpoint skip_ws (s : string) : string :=
  match s with
  | String c s' => if is_ws c then skip_ws s' else s
  | EmptyString => EmptyString
  end.

Fixpoint strip_prefix (p s : string) : option string :=
  match p, s with
  | EmptyString, _ => Some s
  | String a p', String b s' => if Ascii.eqb a b then strip_prefix p' s' else None
  | _, _ => None
  end.

Definition digit (c : Ascii.ascii) : option nat :=
  let n := code c in
  if Nat.leb 48 n && Nat.leb n 57 then Some (n - 48) else None.

Definition hex_value (c : Ascii.ascii) : option N :=
  let n := Utf8.byte c in
  if N.leb 48 n && N.leb n 57 then Some (n - 48)%N
  else if N.leb 97 n && N.leb n 102 then Some (n - 87)%N
  else if N.leb 65 n && N.leb n 70 then Some (n - 55)%N
  else None.

(** The four hexadecimal digits of an escape. *)
Definition hex4_value (a b c d : Ascii.ascii) : option N :=
  h3 ← hex_value a; h2 ← hex_value b; h1 ← hex_value c; h0 ← hex_value d;
  Some (((h3 * 16 + h2) * 16 + h1) * 16 + h0)%N.

(** The escape of a high surrogate followed by the escape of a low one
    is the code point that the two encode. *)
Definition join_surrogates (uni : N) (s : string) : option (N * string) :=
  if N.leb 55296 uni && N.leb uni 56319 then
    match s with
    | String e (String u (String a (String b (String c (String d rest))))) =>
        if Nat.eqb (code e) 92 && Nat.eqb (code u) 117 then
          match hex4_value a b c d with
          | Some low =>
              if N.leb 56320 low && N.leb low 57343 then
                Some ((65536 + (uni - 55296) * 1024 + (low - 56320))%N, rest)
              else Some (uni, s)
          | None => None
          end
        else Some (uni, s)
    | _ => Some (uni, s)
    end
  else Some (uni, s).

(** The digits at the head of [s], as a number, and what follows them. *)
Fixpoint digits (acc : Z) (s : string) : Z * string :=
  match s with
  | String c s' =>
      match digit c with
      | Some d => digits (10 * acc + Z.of_nat d) s'
      | None => (acc, s)
      end
  | EmptyString => (acc, s)
  end.

(** An integer literal; a fraction or an exponent would make a float, which
    the model does not have. *)
Definition parse_int (s : string) : option (Z * string) :=
  let '(neg, s1) := match strip_prefix "-" s with Some r => (true, r) | None => (false, s) end in
  match s1 with
  | String c s2 =>
      match digit c with
      | Some d =>
          let '(n, rest) := if Nat.eqb d 0 then (0%Z, s2) else digits (Z.of_nat d) s2 in
          match rest with
          | String c' _ =>
              if bool_decide (code c' ∈ [46; 101; 69]) || bool_decide (is_Some (digit c'))
              then None else Some (if neg then (- n)%Z else n, rest)
          | EmptyString => Some (if neg then (- n)%Z else n, rest)
          end
      | None => None
      end
  | EmptyString => None
  end.

Definition unescape (c : Ascii.ascii) : option string :=
  let n := code c in
  if bool_decide (n ∈ [34; 92; 47]) then Some (String c EmptyString)
  else if Nat.eqb n 110 then Some (chr 10)
  else if Nat.eqb n 114 then Some (chr 13)
  else if Nat.eqb n 116 then Some (chr 9)
  else if Nat.eqb n 102 then Some (chr 12)
  else if Nat.eqb n 98 then Some (chr 8)
  else None.

(** The characters of a string literal after its opening quote. *)
Fixpoint parse_chars (fuel : nat) (acc s : string) : option (string * string) :=
  match fuel, s with
  | S fuel', String c s1 =>
      if Nat.eqb (code c) 34 then Some (acc, s1)
      else if Nat.eqb (code c) 92 then
        match s1 with
        | String e s2 =>
            if Nat.eqb (code e) 117 then
              match s2 with
              | String a (String b (String x (String y s3))) =>
                  uni ← hex4_value a b x y;
                  '(n, s4) ← join_surrogates uni s3;
                  parse_chars fuel' (acc +:+ Utf8.encode n) s4
              | _ => None
              end
            else
              match unescape e with
              | Some t => parse_chars fuel' (acc +:+ t) s2
              | None => None
              end
        | EmptyString => None
        end
      else if Nat.ltb (code c) 32 then None
      else parse_chars fuel' (acc +:+ String c EmptyString) s1
  | _, _ => None
  end.

Definition parse_string (s : string) : option (string * string) :=
  match s with
  | String c s' =>
      if Nat.eqb (code c) 34 then parse_chars (String.length s') EmptyString s' else None
  | EmptyString => None
  end.

Fixpoint parse_value (fuel : nat) (s : string) : option (pyval * string) :=
  match fuel with
  | O => None
  | S fuel' =>
      let s := skip_ws s in
      match s with
      | EmptyString => None
      | String c s' =>
          if Nat.eqb (code c) 34 then
            '(t, rest) ← parse_string s; Some (PyStr t, rest)
          else if Nat.eqb (code c) 91 then
            match skip_ws s' with
            | String c' rest =>
                if Nat.eqb (code c') 93 then Some (PyList [], rest)
                else parse_elements fuel' [] s'
            | EmptyString => None
            end
          else if Nat.eqb (code c) 123 then
            match skip_ws s' with
            | String c' rest =>
                if Nat.eqb (code c') 125 then Some (PyDict [], rest)
                else parse_members fuel' [] s'
            | EmptyString => None
            end
          else
            match strip_prefix "null" s, strip_prefix "true" s, strip_prefix "false" s with
            | Some rest, _, _ => Some (PyNone, rest)
            | _, Some rest, _ => Some (PyBool true, rest)
            | _, _, Some rest => Some (PyBool false, rest)
            | _, _, _ => '(n, rest) ← parse_int s; Some (PyInt n, rest)
            end
      end
  end
with parse_elements (fuel : nat) (acc : list pyval) (s : string) : option (pyval * string) :=
  match fuel with
  | O => None
  | S fuel' =>
      '(v, rest) ← parse_value fuel' s;
      match skip_ws rest with
      | String c rest' =>
          if Nat.eqb (code c) 44 then parse_elements fuel' (acc ++ [v]) rest'
          else if Nat.eqb (code c) 93 then Some (PyList (acc ++ [v]), rest')
          else None
      | EmptyString => None
      end
  end
with parse_members (fuel : nat) (acc : list (pyval * pyval)) (s : string) : option (pyval * string) :=
  match fuel with
  | O => None
  | S fuel' =>
      '(k, rest) ← parse_string (skip_ws s);
      match skip_ws rest with
      | String c rest1 =>
          if Nat.eqb (code c) 58 then
            '(v, rest2) ← parse_value fuel' rest1;
            match skip_ws rest2 with
            | String c' rest3 =>
                if Nat.eqb (code c') 44 then parse_members fuel' (dict_set (PyStr k) v acc) rest3
                else if Nat.eqb (code c') 125 then Some (PyDict (dict_set (PyStr k) v acc), rest3)
                else None
            | EmptyString => None
            end
          else None
      | EmptyString => None
      end
  end.

Definition loads (text : string) : option pyval :=
  '(v, rest) ← parse_value (S (String.length text)) text;
  match skip_ws rest with
  | EmptyString => Some v
  | _ => None
  end.

(** ['{0:02x}'.format(n)] *)
Definition hex2 (n : N) : string :=
  String (hex_char (n / 16)) (String (hex_char (n mod 16)) EmptyString).

(** What [repr] writes for a code point of a string quoted with [q].
    Whether a code point beyond Latin-1 is printable is a matter of the
    Unicode database: but for the surrogates, it is taken to be. *)
Definition repr_point (q n : N) : string :=
  if N.eqb n q || N.eqb n 92 then BACKSLASH +:+ String (Utf8.char n) EmptyString
  else if N.eqb n 9 then BACKSLASH +:+ "t"
  else if N.eqb n 10 then BACKSLASH +:+ "n"
  else if N.eqb n 13 then BACKSLASH +:+ "r"
  else if N.ltb n 32 || N.eqb n 127 then BACKSLASH +:+ "x" +:+ hex2 n
  else if N.ltb n 127 then String (Utf8.char n) EmptyString
  else if N.leb n 160 || N.eqb n 173 then BACKSLASH +:+ "x" +:+ hex2 n
  else if Utf8.surrogate n then unicode_escape n
  else Utf8.encode n.

(** [repr] of a string: in single quotes, unless it holds one and no
    double quote. *)
Definition repr_str (s : string) : string :=
  let ps := Utf8.points s in
  let q := (if bool_decide (39 ∈ ps) && negb (bool_decide (34 ∈ ps)) then 34 else 39)%N in
  String (Utf8.char q)
    (foldr String.append (String (Utf8.char q) EmptyString) (repr_point q <$> ps)).

Fixpoint repr (v : pyval) : string :=
  match v with
  | PyNone => "None"
  | PyBool true => "True"
  | PyBool false => "False"
  | PyInt n => pretty n
  | PyStr s => repr_str s
  | PyList l => "[" +:+ join ", " (map repr l) +:+ "]"
  | PyDict d => "{" +:+ join ", " (map (λ kv, repr kv.1 +:+ ": " +:+ repr kv.2) d) +:+ "}"
  end.

End Json.

(** The program on a machine whose home directory is [home_dir]. *)
Definition reference_platform (home_dir : string) : Platform :=
  {| home := home_dir;
     json_loads := Json.loads;
     json_dumps := Json.dumps;
     py_repr := Json.repr |}.

(** ** A machine for the examples

    The reference platform with a home directory, and worlds in which
    nothing has been printed yet. *)
Module Sample.

Definition platform : Platform := reference_platform "/home/user".

(** The keyring file holds the encoding of [v]. *)
Definition with_keyring (v : pyval) : @world string :=
  {| files := {[ @KEYRING_PATH platform := @json_dumps platform v ]}; events := [] |}.

(** The keyring file holds [text]. *)
Definition with_text (text : string) : @world string :=
  {| files := {[ @KEYRING_PATH platform := text ]}; events := [] |}.

(** There is no keyring file. *)
Definition fresh : @world string := {| files := ∅; events := [] |}.

(** A keyring of strings. *)
Definition keyring (entries : list (string * string)) : pyval :=
  PyDict (Json.string_entries entries).

(** The disk of the examples. *)
Definition disk : Runtime file := quiet_disk.

(** The keyring path holds [f]. *)
Definition on_disk (f : file) : @world file :=
  {| files := {[ @KEYRING_PATH platform := f ]}; events := [] |}.

(** Text files under a shell that leaves a trace: every [ssh] command
    line it runs rewrites the file [ssh.log]. *)
Definition tracing : Runtime string :=
  {| read_text := inr;
     write_text := λ _ text, inr text;
     shell := λ cmd fs, if String.prefix "ssh " cmd then <["ssh.log" := cmd]> fs else fs;
     decode_error := λ _, JSONDecodeError |}.

End Sample.

(** * Properties *)

Section Properties.
Context `{Platform}.

Implicit Types (w : @world string) (d : list (pyval * pyval)) (keyring addr : pyval).

(** ** How the decorators run *)

Ltac step :=
  repeat progress (unfold mbind, M_bind, mret, M_ret, lift, raise; cbn).

Lemma load_keyring_run w : load_keyring w = (Ok (stored_keyring w), w).
Proof.
  unfold load_keyring, try_except, stored_keyring, open_read, mbind, M_bind.
  destruct (files w !! KEYRING_PATH) as [text|]; [|done].
  cbn [read_text text_files]. by destruct (json_loads text).
Qed.

Lemma stored_keyring_logged es w : stored_keyring (logged es w) = stored_keyring w.
Proof. done. Qed.

Lemma logged_logged es es' w : logged es' (logged es w) = logged (es ++ es') w.
Proof. unfold logged; simpl. by rewrite <-(assoc_L (++)). Qed.

(** [open_keyring]: the directory, the keyring, the decorated function
    with the keyring as one more keyword, and the result written back
    when [write] is set. *)
Lemma open_keyring_run write fn args kws w :
  open_keyring write fn args kws w =
    match call fn args (kws ++ [("keyring", stored_keyring w)]) (logged [mkdir] w) with
    | (Ok result, w') => (Ok result, if write then saved result w' else w')
    | (Raise e, w') => (Raise e, w')
    end.
Proof.
  unfold open_keyring, mbind, M_bind.
  change (subprocess_run _ w) with (Ok (), logged [mkdir] w). cbv beta iota.
  rewrite load_keyring_run.
  change (stored_keyring (logged [mkdir] w)) with (stored_keyring w).
  destruct (call _ _ _ _) as [[result|e] w']; [|done].
  by destruct write.
Qed.

Lemma call_keyring fn args keyring w :
  call fn args [("keyring", keyring)] w = fn args [("keyring", keyring)] w.
Proof. done. Qed.

(** A function under [open_keyring] cannot be given a keyring: the
    decorator passes its own by the same keyword. *)
Lemma open_keyring_given_keyring write fn args keyring w :
  open_keyring write fn args [("keyring", keyring)] w =
    (Raise (TypeError (MultipleValues "keyring")), logged [mkdir] w).
Proof. by rewrite open_keyring_run. Qed.

Lemma bind_validate_label_fn (label : pyval) rest keyring :
  bind validate_label_fn_signature (label :: rest) [("keyring", keyring)] =
    inr {| locals := [("label", label); ("keyring", keyring)];
           star_args := rest; star_kwargs := [] |}.
Proof. done. Qed.

Lemma validate_label_run exists_ fn (label : pyval) rest keyring w :
  validate_label exists_ fn (label :: rest) [("keyring", keyring)] w =
    match py_in label keyring with
    | inl e => (Raise e, w)
    | inr present =>
        if Bool.eqb present exists_ then fn (label :: rest) [("keyring", keyring)] w
        else (Ok keyring, logged [Stdout (label_message exists_ label)] w)
    end.
Proof.
  unfold validate_label, def. rewrite bind_validate_label_fn.
  step. destruct (py_in label keyring) as [e|present]; [done|].
  step. destruct (Bool.eqb present exists_); [done|].
  by destruct exists_.
Qed.

Lemma validate_label_no_label exists_ fn keyring w :
  validate_label exists_ fn [] [("keyring", keyring)] w =
    (Raise (TypeError (MissingArguments ["label"])), w).
Proof. done. Qed.

Lemma required_argument_count_run n fn args kws w :
  required_argument_count n fn args kws w =
    if Nat.ltb (length args) n then (Ok PyNone, logged [Stdout (count_message n)] w)
    else fn args kws w.
Proof. unfold required_argument_count. by destruct (Nat.ltb _ _). Qed.

(** ** The commands *)

Lemma command_fn_decorated c :
  command_fn c =
    open_keyring true (validate_label (must_exist c) (required_argument_count (min_args c) (body c))).
Proof. by destruct c. Qed.

Lemma main_dispatch c prog args w :
  main (prog :: command_name c :: args) w =
    match command_fn c (PyStr <$> args) [] w with
    | (Ok _, w') => (Ok PyNone, w')
    | (Raise e, w') => (Raise e, w')
    end.
Proof. by destruct c. Qed.

Lemma py_in_registered (label : string) d addr :
  dict_get (PyStr label) d = Some addr → py_in (PyStr label) (PyDict d) = inr true.
Proof. intros Hd. unfold py_in, dict_has; simpl. by rewrite Hd. Qed.

Lemma py_in_unregistered (label : string) d :
  dict_get (PyStr label) d = None → py_in (PyStr label) (PyDict d) = inr false.
Proof. intros Hd. unfold py_in, dict_has; simpl. by rewrite Hd. Qed.

Lemma printed_logged es w :
  printed (logged es w) =
    printed w ++ omap (λ e, match e with Stdout line => Some line | Subprocess _ => None end) es.
Proof. unfold printed; simpl. apply omap_app. Qed.

(** A guarded command on a non-empty argument list: the label is looked
    up first, the arguments are counted next, the body runs last. *)
Lemma guarded_command_run c (label : pyval) rest w :
  command_fn c (label :: rest) [] w =
    let keyring := stored_keyring w in
    match py_in label keyring with
    | inl e => (Raise e, logged [mkdir] w)
    | inr present =>
        if Bool.eqb present (must_exist c) then
          if Nat.ltb (length (label :: rest)) (min_args c) then
            (Ok PyNone, saved PyNone (logged [mkdir; Stdout (count_message (min_args c))] w))
          else
            match body c (label :: rest) [("keyring", keyring)] (logged [mkdir] w) with
            | (Ok result, w') => (Ok result, saved result w')
            | (Raise e, w') => (Raise e, w')
            end
        else
          (Ok keyring,
           saved keyring (logged [mkdir; Stdout (label_message (must_exist c) label)] w))
    end.
Proof.
  rewrite command_fn_decorated, open_keyring_run.
  change ([] ++ ?l) with l. rewrite call_keyring, validate_label_run.
  cbv zeta. destruct (py_in label (stored_keyring w)) as [e|present]; [done|].
  destruct (Bool.eqb present (must_exist c)); [|by rewrite logged_logged].
  rewrite required_argument_count_run.
  destruct (Nat.ltb _ _); [by rewrite logged_logged|done].
Qed.

Lemma py_getitem_registered (label : string) d addr :
  dict_get (PyStr label) d = Some addr → py_getitem (PyDict d) (PyStr label) = inr addr.
Proof. intros Hd. unfold py_getitem; simpl. by rewrite Hd. Qed.

Ltac flatten_log :=
  unfold logged; cbn [files events]; rewrite <-?(assoc_L (++)); reflexivity.

Lemma ssh_connect_body_run (label : string) d addr w :
  dict_get (PyStr label) d = Some addr →
  ssh_connect_body [PyStr label] [("keyring", PyDict d)] w =
    (Ok (PyDict d),
     logged [Stdout ("Connecting to " +:+ py_format addr +:+ "...");
             Subprocess ("ssh " +:+ py_format addr);
             Stdout "ssh session finished"] w).
Proof.
  intros Hd. unfold ssh_connect_body, def.
  change (bind _ _ _) with
    (inr (B := frame) (A := exn)
       {| locals := [("label", PyStr label); ("keyring", PyDict d)];
          star_args := []; star_kwargs := [] |}).
  step. rewrite !Hd. step. f_equal. flatten_log.
Qed.

Lemma ssh_run_body_run (label command : string) d addr w :
  dict_get (PyStr label) d = Some addr →
  ssh_run_body [PyStr label; PyStr command] [("keyring", PyDict d)] w =
    (Ok (PyDict d),
     logged [Stdout ("Connecting to " +:+ py_format addr +:+ "...");
             Subprocess ("ssh -t " +:+ py_format addr +:+ " " +:+ command);
             Stdout "ssh session finished"] w).
Proof.
  intros Hd. unfold ssh_run_body, def.
  change (bind _ _ _) with
    (inr (B := frame) (A := exn)
       {| locals := [("label", PyStr label); ("command", PyStr command); ("keyring", PyDict d)];
          star_args := []; star_kwargs := [] |}).
  step. rewrite !Hd. step. f_equal. flatten_log.
Qed.

Lemma main_run prog name args fn w :
  lookup_command name commands = Some fn →
  main (prog :: name :: args) w =
    match fn (PyStr <$> args) [] w with
    | (Ok _, w') => (Ok PyNone, w')
    | (Raise e, w') => (Raise e, w')
    end.
Proof.
  intros Hfn. unfold main. change (Nat.eqb _ 1) with false. cbv iota.
  change (_ !! 1%nat) with (Some name).
  unfold mbind, M_bind, lift, from_option, mret at 1, M_ret. rewrite Hfn.
  change (drop 2 _) with args.
  by destruct (fn _ _ _) as [[?|?] ?].
Qed.

Lemma add_key_given_keyring args keyring w :
  call add_key args [("keyring", keyring)] w =
    (Raise (TypeError (MultipleValues "keyring")), logged [mkdir] w).
Proof. rewrite call_keyring. apply open_keyring_given_keyring. Qed.

(** [rename] reaches its first call and no further. *)
Lemma rename_key_body_run (label new_label : string) d addr w :
  dict_get (PyStr label) d = Some addr →
  rename_key_body [PyStr label; PyStr new_label] [("keyring", PyDict d)] w =
    (Raise (TypeError (MultipleValues "keyring")), logged [mkdir] w).
Proof.
  intros Hd. unfold rename_key_body, def.
  change (bind _ _ _) with
    (inr (B := frame) (A := exn)
       {| locals := [("label", PyStr label); ("new_label", PyStr new_label);
                     ("keyring", PyDict d)];
          star_args := []; star_kwargs := [] |}).
  unfold mbind, M_bind, lift at 1, mret at 1, M_ret.
  change (var _ "label") with (PyStr label).
  change (var _ "new_label") with (PyStr new_label).
  change (var _ "keyring") with (PyDict d).
  rewrite (py_getitem_registered _ _ _ Hd).
  unfold lift, mret, M_ret. by rewrite add_key_given_keyring.
Qed.

Lemma stored_keyring_saved keyring w :
  json_loads (json_dumps keyring) = Some keyring →
  stored_keyring (saved keyring w) = keyring.
Proof.
  intros Hjson. unfold stored_keyring, saved; cbn [files].
  by rewrite lookup_insert_eq, Hjson.
Qed.

Lemma saved_saved keyring keyring' w : saved keyring (saved keyring' w) = saved keyring w.
Proof. unfold saved; cbn [files events]. by rewrite insert_insert_eq. Qed.

(** A label that fails its check: the message, and the keyring written
    back as it was read. *)
Lemma guarded_command_refused c (label : string) rest d w :
  stored_keyring w = PyDict d →
  py_in (PyStr label) (PyDict d) = inr (negb (must_exist c)) →
  command_fn c (PyStr label :: rest) [] w =
    (Ok (PyDict d),
     saved (PyDict d) (logged [mkdir; Stdout (label_message (must_exist c) (PyStr label))] w)).
Proof.
  intros Hw Hin. rewrite guarded_command_run. cbv zeta. rewrite Hw, Hin.
  by destruct (must_exist c).
Qed.

Lemma guarded_command_no_label c w :
  command_fn c [] [] w = (Raise (TypeError (MissingArguments ["label"])), logged [mkdir] w).
Proof.
  rewrite command_fn_decorated, open_keyring_run.
  change ([] ++ ?l) with l. by rewrite call_keyring, validate_label_no_label.
Qed.

Lemma ssh_started_logged es w : ssh_started w (logged es w) = existsb is_ssh es.
Proof. unfold ssh_started, logged; cbn [events]. by rewrite drop_app_length. Qed.

Lemma ssh_started_saved keyring es w :
  ssh_started w (saved keyring (logged es w)) = existsb is_ssh es.
Proof. apply ssh_started_logged. Qed.

Ltac not_started :=
  cbn [snd]; first [rewrite ssh_started_saved | rewrite ssh_started_logged]; reflexivity.

(** With a registered label, [connect] starts the SSH client on exactly
    one argument; on any other argument list it does not get that far. *)
Lemma ssh_connect_cases (args : list string) d w :
  stored_keyring w = PyDict d →
  (∃ (label : string) addr, args = [label] ∧ dict_get (PyStr label) d = Some addr) ∨
  ssh_started w (ssh_connect (PyStr <$> args) [] w).2 = false.
Proof.
  intros Hw. change ssh_connect with (command_fn CConnect).
  destruct args as [|label more].
  { right. change (PyStr <$> []) with (@nil pyval).
    rewrite guarded_command_no_label. not_started. }
  change (PyStr <$> label :: more) with (PyStr label :: (PyStr <$> more)).
  destruct (dict_get (PyStr label) d) as [addr|] eqn:Hd.
  - destruct more as [|extra more]; [left; eauto|right].
    change (PyStr <$> extra :: more) with (PyStr extra :: (PyStr <$> more)).
    rewrite guarded_command_run. cbv zeta. rewrite Hw, (py_in_registered _ _ _ Hd).
    cbn [must_exist Bool.eqb min_args length Nat.ltb Nat.leb body].
    change (ssh_connect_body _ _ _) with
      (Raise (A := pyval) (TypeError (MultipleValues "keyring")), logged [mkdir] w).
    not_started.
  - right. rewrite (guarded_command_refused CConnect _ _ d); [|done|by apply py_in_unregistered].
    not_started.
Qed.

(** [run] starts it on exactly two. *)
Lemma ssh_run_cases (args : list string) d w :
  stored_keyring w = PyDict d →
  (∃ (label command : string) addr,
     args = [label; command] ∧ dict_get (PyStr label) d = Some addr) ∨
  ssh_started w (ssh_run (PyStr <$> args) [] w).2 = false.
Proof.
  intros Hw. change ssh_run with (command_fn CRun).
  destruct args as [|label more].
  { right. change (PyStr <$> []) with (@nil pyval).
    rewrite guarded_command_no_label. not_started. }
  change (PyStr <$> label :: more) with (PyStr label :: (PyStr <$> more)).
  destruct (dict_get (PyStr label) d) as [addr|] eqn:Hd.
  - destruct more as [|command [|extra more]]; [right|left; eauto 6|right].
    + change (PyStr <$> []) with (@nil pyval).
      rewrite guarded_command_run. cbv zeta. rewrite Hw, (py_in_registered _ _ _ Hd).
      cbn [must_exist Bool.eqb min_args length Nat.ltb Nat.leb]. not_started.
    + change (PyStr <$> command :: extra :: more)
        with (PyStr command :: PyStr extra :: (PyStr <$> more)).
      rewrite guarded_command_run. cbv zeta. rewrite Hw, (py_in_registered _ _ _ Hd).
      cbn [must_exist Bool.eqb min_args length Nat.ltb Nat.leb body].
      change (ssh_run_body _ _ _) with
        (Raise (A := pyval) (TypeError (MultipleValues "keyring")), logged [mkdir] w).
      not_started.
  - right. rewrite (guarded_command_refused CRun _ _ d); [|done|by apply py_in_unregistered].
    not_started.
Qed.

(** ** The claims *)

(** C9. With nothing after the command name, [add], [remove], [connect]
    and [run] end in a [TypeError] that nothing handles, for the missing
    positional argument [label]: the command function raises it, [main]
    lets it through, and nothing has been printed, the argument-count
    message included. *)
Theorem guarded_command_without_argument c prog w :
  command_fn c [] [] w = (Raise (TypeError (MissingArguments ["label"])), logged [mkdir] w) ∧
  main [prog; command_name c] w =
    (Raise (TypeError (MissingArguments ["label"])), logged [mkdir] w) ∧
  printed (logged [mkdir] w) = printed w.
Proof.
  pose proof (guarded_command_no_label c w) as Hfn.
  split; [done|]. split.
  - rewrite (main_dispatch c prog []). change (PyStr <$> []) with (@nil pyval).
    by rewrite Hfn.
  - rewrite printed_logged. apply app_nil_r.
Qed.

(** C3. [import] never merges.  Given a file path, and whatever follows
    it, the decorated function binds the path to the first parameter of
    the body, [keyring], and then receives the keyring by keyword: the call
    is a [TypeError], the import file is not read and the keyring file is
    not written. *)
Theorem import_keyring_raises (arg : pyval) rest prog (path : string) more w :
  import_keyring (arg :: rest) [] w =
    (Raise (TypeError (MultipleValues "keyring")), logged [mkdir] w) ∧
  main (prog :: "import" :: path :: more) w =
    (Raise (TypeError (MultipleValues "keyring")), logged [mkdir] w).
Proof.
  assert (∀ (arg : pyval) rest, import_keyring (arg :: rest) [] w =
            (Raise (TypeError (MultipleValues "keyring")), logged [mkdir] w)) as Hfn.
  { clear. intros arg rest. unfold import_keyring. rewrite open_keyring_run.
    change ([] ++ ?l) with l. rewrite call_keyring, required_argument_count_run.
    change (Nat.ltb _ 1) with false. cbv iota.
    unfold import_keyring_body, def. by destruct rest. }
  split; [apply Hfn|].
  rewrite (main_run _ _ _ import_keyring); [|done].
  change (PyStr <$> path :: more) with (PyStr path :: (PyStr <$> more)).
  by rewrite Hfn.
Qed.

(** C1. [rename] does not rename.  When the old label is registered, to
    whatever address and whatever the new label, [rename_key] reads the
    address and calls [add_key] with the keyring as a keyword; [add_key] is
    decorated by [open_keyring], which passes a keyring by the same keyword,
    so the call is a [TypeError].  Nothing is added, nothing is removed and
    the keyring file is not written. *)
Theorem rename_key_raises (label new_label : string) d addr prog w :
  stored_keyring w = PyDict d →
  dict_get (PyStr label) d = Some addr →
  rename_key [PyStr label; PyStr new_label] [] w =
    (Raise (TypeError (MultipleValues "keyring")), logged [mkdir; mkdir] w) ∧
  main [prog; "rename"; label; new_label] w =
    (Raise (TypeError (MultipleValues "keyring")), logged [mkdir; mkdir] w).
Proof.
  intros Hw Hd.
  assert (rename_key [PyStr label; PyStr new_label] [] w =
            (Raise (TypeError (MultipleValues "keyring")), logged [mkdir; mkdir] w)) as Hfn.
  { unfold rename_key. rewrite open_keyring_run.
    change ([] ++ ?l) with l. rewrite call_keyring, required_argument_count_run.
    change (Nat.ltb _ 2) with false. cbv iota.
    by rewrite Hw, (rename_key_body_run _ _ _ _ _ Hd), logged_logged. }
  split; [done|].
  rewrite (main_run _ _ _ rename_key); [|done].
  change (PyStr <$> _) with [PyStr label; PyStr new_label]. by rewrite Hfn.
Qed.

(** C2. An argument list that fails the count does not leave the keyring
    file alone.  [required_argument_count] prints its message and returns
    [None]; [open_keyring] takes that for the keyring and writes it back.
    So [rename] with fewer than two arguments, [add] with a new label and no
    address, [run] with a registered label and no command all print the
    message and replace the keyring file by the encoding of [None], which is
    what the next command loads. *)
Theorem short_argument_list_overwrites_keyring w :
  let w' := saved PyNone (logged [mkdir; Stdout "This action requires 2 arguments!"] w) in
  (∀ args, length args < 2 → rename_key args [] w = (Ok PyNone, w')) ∧
  (∀ (label : string) d,
     stored_keyring w = PyDict d → dict_get (PyStr label) d = None →
     add_key [PyStr label] [] w = (Ok PyNone, w')) ∧
  (∀ (label : string) d addr,
     stored_keyring w = PyDict d → dict_get (PyStr label) d = Some addr →
     ssh_run [PyStr label] [] w = (Ok PyNone, w')) ∧
  files w' !! KEYRING_PATH = Some (json_dumps PyNone) ∧
  (json_loads (json_dumps PyNone) = Some PyNone → stored_keyring w' = PyNone).
Proof.
  cbv zeta. repeat split.
  - intros args Hlen. unfold rename_key. rewrite open_keyring_run.
    change ([] ++ ?l) with l. rewrite call_keyring, required_argument_count_run.
    apply Nat.ltb_lt in Hlen. rewrite Hlen. by rewrite logged_logged.
  - intros label d Hw Hd. change add_key with (command_fn CAdd). rewrite guarded_command_run. cbv zeta.
    by rewrite Hw, (py_in_unregistered _ _ Hd).
  - intros label d addr Hw Hd. change ssh_run with (command_fn CRun). rewrite guarded_command_run. cbv zeta.
    by rewrite Hw, (py_in_registered _ _ _ Hd).
  - unfold saved; cbn [files]. apply lookup_insert_eq.
  - apply stored_keyring_saved.
Qed.

(** C5. The order of validation.  A guarded command ([add], [remove],
    [connect], [run]) given at least one argument loads the keyring, then
    looks the first argument up in it, then counts the arguments, then runs
    its body: a label that fails its check is reported whatever the number
    of arguments, and the count is only reported for a label that passed.
    In particular [add] with a registered label as its only argument prints
    the already-registered message, not the argument-count message, and
    returns and writes back the keyring it loaded. *)
Theorem validation_order c (label : pyval) rest w :
  command_fn c (label :: rest) [] w =
    (let keyring := stored_keyring w in
     match py_in label keyring with
     | inl e => (Raise e, logged [mkdir] w)
     | inr present =>
         if Bool.eqb present (must_exist c) then
           if Nat.ltb (length (label :: rest)) (min_args c) then
             (Ok PyNone, saved PyNone (logged [mkdir; Stdout (count_message (min_args c))] w))
           else
             match body c (label :: rest) [("keyring", keyring)] (logged [mkdir] w) with
             | (Ok result, w') => (Ok result, saved result w')
             | (Raise e, w') => (Raise e, w')
             end
         else
           (Ok keyring,
            saved keyring (logged [mkdir; Stdout (label_message (must_exist c) label)] w))
     end) ∧
  (∀ (name : string) d addr,
     stored_keyring w = PyDict d → dict_get (PyStr name) d = Some addr →
     add_key [PyStr name] [] w =
       (Ok (PyDict d),
        saved (PyDict d)
          (logged [mkdir; Stdout ("The label " +:+ name +:+ " is already registered!")] w))).
Proof.
  split; [apply guarded_command_run|].
  intros name d addr Hw Hd.
  apply (guarded_command_refused CAdd); [done|]. by apply py_in_registered with addr.
Qed.

(** C6. Removing a label that is not registered is refused and changes
    nothing: [remove_key] prints the label followed by
    [ is not a valid label!], for the label ghost exactly
    [ghost is not a valid label!], and returns and writes back the keyring
    it loaded, which is what the next command reads when the json module
    decodes what it encoded. *)
Theorem remove_unknown_label d w :
  stored_keyring w = PyDict d →
  (dict_get (PyStr "ghost") d = None →
   remove_key [PyStr "ghost"] [] w =
     (Ok (PyDict d),
      saved (PyDict d) (logged [mkdir; Stdout "ghost is not a valid label!"] w))) ∧
  (∀ label : string,
     dict_get (PyStr label) d = None →
     let w' := saved (PyDict d) (logged [mkdir; Stdout (label +:+ " is not a valid label!")] w) in
     remove_key [PyStr label] [] w = (Ok (PyDict d), w') ∧
     (json_loads (json_dumps (PyDict d)) = Some (PyDict d) →
      stored_keyring w' = stored_keyring w)).
Proof.
  intros Hw.
  assert (∀ label : string,
            dict_get (PyStr label) d = None →
            remove_key [PyStr label] [] w =
              (Ok (PyDict d),
               saved (PyDict d) (logged [mkdir; Stdout (label +:+ " is not a valid label!")] w)))
    as Hremove.
  { intros label Hd. apply (guarded_command_refused CRemove); [done|].
    by apply py_in_unregistered. }
  split; [apply Hremove|].
  intros label Hd. cbv zeta. split; [by apply Hremove|].
  intros Hjson. by rewrite stored_keyring_saved, Hw.
Qed.

(** C7, amended.  Adding a label that is registered is refused and changes
    nothing: [add_key] prints [The label ], the label and
    [ is already registered!], for the label db
    [The label db is already registered!], and returns and writes back the
    keyring it loaded. *)
Theorem add_registered_label d w :
  stored_keyring w = PyDict d →
  (∀ addr addr',
     dict_get (PyStr "db") d = Some addr →
     add_key [PyStr "db"; addr'] [] w =
       (Ok (PyDict d),
        saved (PyDict d) (logged [mkdir; Stdout "The label db is already registered!"] w))) ∧
  (∀ (label : string) addr rest,
     dict_get (PyStr label) d = Some addr →
     let w' :=
       saved (PyDict d)
         (logged [mkdir; Stdout ("The label " +:+ label +:+ " is already registered!")] w) in
     add_key (PyStr label :: rest) [] w = (Ok (PyDict d), w') ∧
     (json_loads (json_dumps (PyDict d)) = Some (PyDict d) →
      stored_keyring w' = stored_keyring w)).
Proof.
  intros Hw.
  assert (∀ (label : string) addr rest,
            dict_get (PyStr label) d = Some addr →
            add_key (PyStr label :: rest) [] w =
              (Ok (PyDict d),
               saved (PyDict d)
                 (logged [mkdir; Stdout ("The label " +:+ label +:+ " is already registered!")] w)))
    as Hadd.
  { intros label addr rest Hd. apply (guarded_command_refused CAdd); [done|].
    by apply py_in_registered with addr. }
  split; [intros addr addr' Hd; by apply Hadd with addr|].
  intros label addr rest Hd. cbv zeta. split; [by apply Hadd with addr|].
  intros Hjson. by rewrite stored_keyring_saved, Hw.
Qed.

(** C10. [connect] and [run] do not change the keyring.  On a registered
    label, [connect] with the label and [run] with the label and a command
    print their two messages around the SSH invocation, and the keyring
    they return and write back to the file is the one they loaded.  And on
    every argument list of the command line: when the SSH client was
    started, the command completed with the keyring it loaded and the
    keyring file holds the encoding of that keyring. *)
Theorem ssh_commands_keep_keyring d w :
  stored_keyring w = PyDict d →
  (∀ (label : string) addr,
     dict_get (PyStr label) d = Some addr →
     ssh_connect [PyStr label] [] w =
       (Ok (PyDict d),
        saved (PyDict d)
          (logged [mkdir;
                   Stdout ("Connecting to " +:+ py_format addr +:+ "...");
                   Subprocess ("ssh " +:+ py_format addr);
                   Stdout "ssh session finished"] w)) ∧
     (∀ command : string,
        ssh_run [PyStr label; PyStr command] [] w =
          (Ok (PyDict d),
           saved (PyDict d)
             (logged [mkdir;
                      Stdout ("Connecting to " +:+ py_format addr +:+ "...");
                      Subprocess ("ssh -t " +:+ py_format addr +:+ " " +:+ command);
                      Stdout "ssh session finished"] w)))) ∧
  (∀ (fn : pyfun) (args : list string),
     fn = ssh_connect ∨ fn = ssh_run →
     ssh_started w (fn (PyStr <$> args) [] w).2 = true →
     (fn (PyStr <$> args) [] w).1 = Ok (PyDict d) ∧
     files (fn (PyStr <$> args) [] w).2 = <[KEYRING_PATH := json_dumps (PyDict d)]> (files w)).
Proof.
  intros Hw.
  assert (∀ (label : string) addr,
            dict_get (PyStr label) d = Some addr →
            ssh_connect [PyStr label] [] w =
              (Ok (PyDict d),
               saved (PyDict d)
                 (logged [mkdir;
                          Stdout ("Connecting to " +:+ py_format addr +:+ "...");
                          Subprocess ("ssh " +:+ py_format addr);
                          Stdout "ssh session finished"] w))) as Hconnect.
  { intros label addr Hd.
    change ssh_connect with (command_fn CConnect). rewrite guarded_command_run. cbv zeta.
    rewrite Hw, (py_in_registered _ _ _ Hd).
    cbn [body].
    by rewrite (ssh_connect_body_run _ _ _ _ Hd), logged_logged. }
  assert (∀ (label command : string) addr,
            dict_get (PyStr label) d = Some addr →
            ssh_run [PyStr label; PyStr command] [] w =
              (Ok (PyDict d),
               saved (PyDict d)
                 (logged [mkdir;
                          Stdout ("Connecting to " +:+ py_format addr +:+ "...");
                          Subprocess ("ssh -t " +:+ py_format addr +:+ " " +:+ command);
                          Stdout "ssh session finished"] w))) as Hrun.
  { intros label command addr Hd.
    change ssh_run with (command_fn CRun). rewrite guarded_command_run. cbv zeta.
    rewrite Hw, (py_in_registered _ _ _ Hd).
    cbn [body].
    by rewrite (ssh_run_body_run _ _ _ _ _ Hd), logged_logged. }
  split; [intros label addr Hd; split; [|intros command]; eauto|].
  intros fn args [-> | ->] Hstarted.
  - destruct (ssh_connect_cases args d w Hw) as [(label & addr & -> & Hd)|Hnot];
      [|congruence].
    change (PyStr <$> [label]) with [PyStr label]. by rewrite (Hconnect _ _ Hd).
  - destruct (ssh_run_cases args d w Hw) as [(label & command & addr & -> & Hd)|Hnot];
      [|congruence].
    change (PyStr <$> [label; command]) with [PyStr label; PyStr command].
    by rewrite (Hrun _ _ _ Hd).
Qed.
End Properties.

(** ** Loading the keyring from a disk *)

Section Loading.
Context `{Platform} (raises : string → exn) (sh : string → gmap string file → gmap string file).

Lemma load_keyring_on_disk (w : @world file) :
  load_keyring (machine := disk raises sh) w =
    (match files w !! KEYRING_PATH with
     | None => Ok (PyDict [])
     | Some Directory => Raise IsADirectoryError
     | Some Locked => Raise PermissionError
     | Some (Regular bytes) =>
         if Utf8.text bytes then
           match json_loads bytes with
           | Some keyring => Ok keyring
           | None =>
               match raises bytes with
               | JSONDecodeError | FileNotFoundError _ => Ok (PyDict [])
               | e => Raise e
               end
           end
         else Raise UnicodeDecodeError
     end, w).
Proof.
  unfold load_keyring, try_except, open_read, mbind, M_bind.
  destruct (files w !! KEYRING_PATH) as [[bytes| |]|]; cbn [read_text disk]; try done.
  destruct (Utf8.text bytes); [|done].
  destruct (json_loads bytes) as [keyring|]; [done|].
  unfold raise. cbn [decode_error disk]. by destruct (raises bytes).
Qed.

(** C4, amended.  Loading fails the calling command on every exception
    but the two that [open_keyring] names.  On a disk, the load step returns
    the empty mapping when there is no keyring file and when the file is a
    text that [json.loads] rejects with [JSONDecodeError], and the value
    that [json.loads] returns when it returns one.  It raises
    [UnicodeDecodeError] when the bytes of the file are not UTF-8,
    [IsADirectoryError] and [PermissionError] when the path is a directory
    or may not be read, and whatever else [json.loads] raises.  And when the
    load step raises, so does the command, after [mkdir] and before the
    decorated function is called or anything is written. *)
Theorem load_keyring_cases (w : @world file) :
  let machine := disk raises sh in
  load_keyring w =
    (match files w !! KEYRING_PATH with
     | None => Ok (PyDict [])
     | Some Directory => Raise IsADirectoryError
     | Some Locked => Raise PermissionError
     | Some (Regular bytes) =>
         if Utf8.text bytes then
           match json_loads bytes with
           | Some keyring => Ok keyring
           | None =>
               match raises bytes with
               | JSONDecodeError | FileNotFoundError _ => Ok (PyDict [])
               | e => Raise e
               end
           end
         else Raise UnicodeDecodeError
     end, w) ∧
  (∀ write fn args kws e,
     let w1 := (subprocess_run ("mkdir -p " +:+ DATA_DIR) w).2 in
     load_keyring w1 = (Raise e, w1) →
     open_keyring write fn args kws w = (Raise e, w1)).
Proof.
  cbv zeta. split; [apply load_keyring_on_disk|].
  intros write fn args kws e Hload.
  unfold open_keyring, mbind, M_bind.
  destruct (subprocess_run _ w) as [[[]|e'] w1] eqn:Hrun; [|done].
  cbn [snd] in Hload. by rewrite Hload.
Qed.

End Loading.

(** ** The reference platform decodes the keyrings it encodes

    What some statements assume of the json module, that it reads back
    what it wrote, is proved here of the reference platform for every
    keyring whose labels and addresses are texts: a text is cut into its
    code points, each is written as itself or as an escape, and each is
    read back and encoded as it was. *)

Section JsonFacts.
Import Json.

Lemma append_cons x (a b : string) : String x a +:+ b = String x (a +:+ b).
Proof. done. Qed.

Lemma append_assoc (a b c : string) : (a +:+ b) +:+ c = a +:+ (b +:+ c).
Proof. induction a as [|x a IH]; [done|]. by rewrite !append_cons, IH. Qed.

Lemma append_nil_r (a : string) : a +:+ EmptyString = a.
Proof. induction a as [|x a IH]; [done|]. by rewrite append_cons, IH. Qed.

Lemma append_length (a b : string) :
  String.length (a +:+ b) = String.length a + String.length b.
Proof. induction a as [|x a IH]; [done|]. rewrite append_cons. simpl. by rewrite IH. Qed.

(** *** Bytes and code points *)

Lemma char_byte a : Utf8.char (Utf8.byte a) = a.
Proof. apply Ascii.ascii_N_embedding. Qed.

Lemma byte_char n : (n < 256)%N → Utf8.byte (Utf8.char n) = n.
Proof. apply Ascii.N_ascii_embedding. Qed.

Lemma byte_bound a : (Utf8.byte a < 256)%N.
Proof. apply Ascii.N_ascii_bounded. Qed.

Ltac comparisons :=
  repeat match goal with
         | |- context [N.leb ?x ?y] => destruct (N.leb_spec x y)
         | |- context [N.ltb ?x ?y] => destruct (N.ltb_spec x y)
         | |- context [N.eqb ?x ?y] => destruct (N.eqb_spec x y)
         end;
  cbn [andb negb].

Ltac arith := zify; Z.to_euclidean_division_equations; lia.

Lemma encode_1 x : (x < 128)%N → Utf8.encode x = String (Utf8.char x) EmptyString.
Proof. intros Hx. unfold Utf8.encode. comparisons; try lia. done. Qed.

Lemma encode_2 x y :
  (194 ≤ x ≤ 223)%N → (128 ≤ y ≤ 191)%N →
  Utf8.encode ((x - 192) * 64 + (y - 128)) =
    String (Utf8.char x) (String (Utf8.char y) EmptyString).
Proof.
  intros Hx Hy. unfold Utf8.encode. comparisons; try lia.
  repeat f_equal; arith.
Qed.

Lemma encode_3 x y z :
  (224 ≤ x ≤ 239)%N → (128 ≤ y ≤ 191)%N → (128 ≤ z ≤ 191)%N →
  (2048 ≤ (x - 224) * 4096 + (y - 128) * 64 + (z - 128))%N →
  Utf8.encode ((x - 224) * 4096 + (y - 128) * 64 + (z - 128)) =
    String (Utf8.char x) (String (Utf8.char y) (String (Utf8.char z) EmptyString)).
Proof.
  intros Hx Hy Hz Hn. unfold Utf8.encode. comparisons; try lia.
  repeat f_equal; arith.
Qed.

Lemma encode_4 x y z t :
  (240 ≤ x ≤ 244)%N → (128 ≤ y ≤ 191)%N → (128 ≤ z ≤ 191)%N → (128 ≤ t ≤ 191)%N →
  (65536 ≤ (x - 240) * 262144 + (y - 128) * 4096 + (z - 128) * 64 + (t - 128))%N →
  Utf8.encode ((x - 240) * 262144 + (y - 128) * 4096 + (z - 128) * 64 + (t - 128)) =
    String (Utf8.char x)
      (String (Utf8.char y) (String (Utf8.char z) (String (Utf8.char t) EmptyString))).
Proof.
  intros Hx Hy Hz Ht Hn. unfold Utf8.encode. comparisons; try lia.
  repeat f_equal; arith.
Qed.

(** What [decode] reads, [encode] writes. *)
Lemma decode_encode s n rest :
  Utf8.decode s = Some (n, rest) →
  s = Utf8.encode n +:+ rest ∧ (n ≤ 1114111)%N ∧ (String.length rest < String.length s)%nat.
Proof.
  destruct s as [|a s1]; [done|]. unfold Utf8.decode, Utf8.continuation.
  pose proof (byte_bound a) as Ha.
  destruct (N.ltb_spec (Utf8.byte a) 128).
  { intros [= <- <-]. rewrite encode_1, char_byte by done. split; [done|]. split; [lia|simpl; lia]. }
  destruct s1 as [|b s2]; [done|].
  destruct (N.leb_spec 128 (Utf8.byte b)), (N.leb_spec (Utf8.byte b) 191); cbn [andb]; try done.
  destruct (N.leb_spec 194 (Utf8.byte a)), (N.leb_spec (Utf8.byte a) 223); cbn [andb].
  { intros [= <- <-]. rewrite encode_2, !char_byte by lia.
    split; [done|]. split; [lia|simpl; lia]. }
  all: destruct s2 as [|c s3]; [done|].
  all: destruct (N.leb_spec 128 (Utf8.byte c)), (N.leb_spec (Utf8.byte c) 191); cbn [andb];
    try done.
  all: destruct (N.leb_spec 224 (Utf8.byte a)), (N.leb_spec (Utf8.byte a) 239); cbn [andb].
  all: cbv zeta.
  all: try (destruct (N.leb_spec 2048
                        ((Utf8.byte a - 224) * 4096 + (Utf8.byte b - 128) * 64
                         + (Utf8.byte c - 128))); [|done];
            intros [= <- <-]; rewrite encode_3, !char_byte by lia;
            split; [done|]; split; [lia|simpl; lia]).
  all: destruct s3 as [|d s4]; [done|].
  all: destruct (N.leb_spec 128 (Utf8.byte d)), (N.leb_spec (Utf8.byte d) 191); cbn [andb];
    try done.
  all: destruct (N.leb_spec 240 (Utf8.byte a)), (N.leb_spec (Utf8.byte a) 244); cbn [andb];
    try done.
  all: destruct (N.leb_spec 65536
                   ((Utf8.byte a - 240) * 262144 + (Utf8.byte b - 128) * 4096
                    + (Utf8.byte c - 128) * 64 + (Utf8.byte d - 128))); cbn [andb]; [|done].
  all: destruct (N.leb_spec
                   ((Utf8.byte a - 240) * 262144 + (Utf8.byte b - 128) * 4096
                    + (Utf8.byte c - 128) * 64 + (Utf8.byte d - 128)) 1114111); [|done].
  all: intros [= <- <-]; rewrite encode_4, !char_byte by lia.
  all: split; [done|]; split; [lia|simpl; lia].
Qed.

Lemma stray_surrogate a : Utf8.surrogate (56320 + Utf8.byte a) = true.
Proof. pose proof (byte_bound a). unfold Utf8.surrogate. comparisons; lia. Qed.

(** The code points of a text are no surrogates, and their encodings,
    one after the other, are the text. *)
Lemma points_from_text fuel s :
  (String.length s ≤ fuel)%nat →
  forallb (λ n, negb (Utf8.surrogate n)) (Utf8.points_from fuel s) = true →
  foldr String.append EmptyString (Utf8.encode <$> Utf8.points_from fuel s) = s ∧
  Forall (λ n, (n ≤ 1114111)%N ∧ Utf8.surrogate n = false) (Utf8.points_from fuel s).
Proof.
  revert s. induction fuel as [|fuel IH]; intros s Hlen.
  { destruct s; [done|simpl in Hlen; lia]. }
  destruct s as [|a s1]; [done|]. cbn [Utf8.points_from].
  destruct (Utf8.decode (String a s1)) as [[n rest]|] eqn:Hdec.
  - apply decode_encode in Hdec as (Hs & Hn & Hrest).
    cbn [forallb]. intros [Hsur Hall]%andb_true_iff.
    destruct (IH rest) as [Henc Hscalar]; [simpl in *; lia|done|].
    split.
    + rewrite fmap_cons. cbn [foldr]. by rewrite Henc, <-Hs.
    + constructor; [|done]. split; [done|]. by apply negb_true_iff.
  - cbn [forallb]. by rewrite stray_surrogate.
Qed.

Lemma points_text s :
  Utf8.text s = true →
  foldr String.append EmptyString (Utf8.encode <$> Utf8.points s) = s ∧
  Forall (λ n, (n ≤ 1114111)%N ∧ Utf8.surrogate n = false) (Utf8.points s).
Proof. by apply points_from_text. Qed.

(** *** Escapes *)

Lemma hex_value_char d : (d < 16)%N → hex_value (hex_char d) = Some d.
Proof.
  intros Hd. destruct d as [|p]; [done|].
  repeat (destruct p as [p|p|]; try lia; try reflexivity).
Qed.

Lemma hex4_value_hex4 n :
  (n < 65536)%N →
  hex4_value (hex_char (n / 4096)) (hex_char ((n / 256) mod 16))
    (hex_char ((n / 16) mod 16)) (hex_char (n mod 16)) = Some n.
Proof.
  intros Hn. unfold hex4_value. rewrite !hex_value_char by arith.
  cbn [mbind option_bind]. f_equal. arith.
Qed.

Lemma parse_chars_unicode fuel acc n rest :
  parse_chars (S fuel) acc (unicode_escape n +:+ rest) =
    (uni ← hex4_value (hex_char (n / 4096)) (hex_char ((n / 256) mod 16))
             (hex_char ((n / 16) mod 16)) (hex_char (n mod 16));
     '(m, s) ← join_surrogates uni rest;
     parse_chars fuel (acc +:+ Utf8.encode m) s).
Proof. reflexivity. Qed.

Lemma join_surrogates_plain n s :
  Utf8.surrogate n = false → join_surrogates n s = Some (n, s).
Proof.
  unfold Utf8.surrogate, join_surrogates. comparisons; try done; lia.
Qed.

Lemma join_surrogates_pair high low rest :
  (55296 ≤ high ≤ 56319)%N → (56320 ≤ low ≤ 57343)%N →
  join_surrogates high (unicode_escape low +:+ rest) =
    Some ((65536 + (high - 55296) * 1024 + (low - 56320))%N, rest).
Proof.
  intros Hhigh Hlow. unfold join_surrogates.
  destruct (N.leb_spec 55296 high), (N.leb_spec high 56319); try lia. cbn [andb].
  change (unicode_escape low +:+ rest)
    with (String (Ascii.ascii_of_nat 92)
            (String (Ascii.ascii_of_nat 117)
               (String (hex_char (low / 4096))
                  (String (hex_char ((low / 256) mod 16))
                     (String (hex_char ((low / 16) mod 16))
                        (String (hex_char (low mod 16)) rest)))))).
  cbv beta iota.
  change (Nat.eqb (code (Ascii.ascii_of_nat 92)) 92 && Nat.eqb (code (Ascii.ascii_of_nat 117)) 117)
    with true.
  cbv iota. rewrite hex4_value_hex4 by lia.
  by destruct (N.leb_spec 56320 low), (N.leb_spec low 57343); try lia.
Qed.

(** An ASCII character, written and read. *)
Lemma parse_chars_ascii c fuel acc rest :
  (Utf8.byte c < 128)%N →
  parse_chars (S fuel) acc (escape_point (Utf8.byte c) +:+ rest) =
    parse_chars fuel (acc +:+ String c EmptyString) rest.
Proof.
  destruct c as [b0 b1 b2 b3 b4 b5 b6 [|]].
  - destruct b0, b1, b2, b3, b4, b5, b6; intros Hc; vm_compute in Hc; discriminate Hc.
  - intros _. destruct b0, b1, b2, b3, b4, b5, b6; reflexivity.
Qed.

(** A code point, written and read. *)
Lemma parse_chars_point n fuel acc rest :
  (n ≤ 1114111)%N → Utf8.surrogate n = false →
  parse_chars (S fuel) acc (escape_point n +:+ rest) =
    parse_chars fuel (acc +:+ Utf8.encode n) rest.
Proof.
  intros Hn Hsur.
  destruct (N.ltb_spec n 128) as [Hascii|Hwide].
  { rewrite encode_1 by done. rewrite <-(byte_char n) at 1 by lia.
    apply parse_chars_ascii. rewrite byte_char; lia. }
  unfold escape_point.
  repeat match goal with
         | |- context [N.eqb n ?k] => destruct (N.eqb_spec n k); [lia|]
         end.
  destruct (N.leb_spec 32 n), (N.leb_spec n 126); try lia. cbn [andb].
  destruct (N.ltb_spec n 65536) as [Hbmp|Hastral].
  - rewrite parse_chars_unicode, hex4_value_hex4 by done.
    cbn [mbind option_bind]. by rewrite join_surrogates_plain.
  - cbv zeta. rewrite append_assoc, parse_chars_unicode, hex4_value_hex4 by arith.
    cbn [mbind option_bind]. rewrite join_surrogates_pair by arith.
    replace (65536 + (55296 + (n - 65536) / 1024 - 55296) * 1024
             + (56320 + (n - 65536) mod 1024 - 56320))%N with n by arith.
    done.
Qed.

Lemma escape_point_length n : (1 ≤ String.length (escape_point n))%nat.
Proof.
  unfold escape_point. repeat case_match; vm_compute; lia.
Qed.

Lemma escape_points_length l :
  (length l ≤ String.length (foldr String.append EmptyString (escape_point <$> l)))%nat.
Proof.
  induction l as [|n l IH]; [done|].
  rewrite fmap_cons. cbn [foldr length]. rewrite append_length.
  pose proof (escape_point_length n). lia.
Qed.

Lemma parse_chars_points l fuel acc rest :
  Forall (λ n, (n ≤ 1114111)%N ∧ Utf8.surrogate n = false) l →
  (length l < fuel)%nat →
  parse_chars fuel acc
    (foldr String.append EmptyString (escape_point <$> l) +:+ String QUOTE_CHAR rest) =
    Some (acc +:+ foldr String.append EmptyString (Utf8.encode <$> l), rest).
Proof.
  intros Hl. revert fuel acc.
  induction Hl as [|n l [Hn Hsur] _ IH]; intros [|fuel] acc Hlen; simpl in Hlen; try lia.
  - by rewrite append_nil_r.
  - rewrite !fmap_cons. cbn [foldr].
    rewrite append_assoc, parse_chars_point, IH by (done || lia).
    by rewrite append_assoc.
Qed.

Lemma parse_chars_escape s fuel acc rest :
  Utf8.text s = true →
  (String.length (escape s) < fuel)%nat →
  parse_chars fuel acc (escape s +:+ String QUOTE_CHAR rest) = Some (acc +:+ s, rest).
Proof.
  intros [Henc Hscalar]%points_text Hlen. unfold escape in *.
  rewrite parse_chars_points; [by rewrite Henc|done|].
  pose proof (escape_points_length (Utf8.points s)). lia.
Qed.
Lemma quote_app s rest : quote s +:+ rest = String QUOTE_CHAR (escape s +:+ String QUOTE_CHAR rest).
Proof.
  unfold quote, QUOTE.
  change (String QUOTE_CHAR EmptyString +:+ ?x) with (String QUOTE_CHAR x).
  by rewrite append_cons, append_assoc.
Qed.

Lemma parse_string_quote s rest :
  Utf8.text s = true → parse_string (quote s +:+ rest) = Some (s, rest).
Proof.
  intros Hs. rewrite quote_app. unfold parse_string.
  change (Nat.eqb (code QUOTE_CHAR) 34) with true. cbv iota.
  rewrite parse_chars_escape; [done..|].
  rewrite append_length. simpl. lia.
Qed.

Lemma skip_ws_quote s rest : skip_ws (quote s +:+ rest) = quote s +:+ rest.
Proof. by rewrite quote_app. Qed.

Lemma parse_value_quoted fuel text s rest :
  Utf8.text s = true →
  skip_ws text = quote s +:+ rest → parse_value (S fuel) text = Some (PyStr s, rest).
Proof.
  intros Hs Htext. simpl. rewrite Htext, quote_app. cbv beta iota.
  change (Nat.eqb (code QUOTE_CHAR) 34) with true. cbv iota.
  by rewrite <-quote_app, parse_string_quote.
Qed.

Lemma parse_members_step fuel acc text k v tail :
  Utf8.text k = true → Utf8.text v = true →
  skip_ws text = quote k +:+ ": " +:+ quote v +:+ tail →
  parse_members (S (S fuel)) acc text =
    match skip_ws tail with
    | String c rest =>
        if Nat.eqb (code c) 44 then
          parse_members (S fuel) (dict_set (PyStr k) (PyStr v) acc) rest
        else if Nat.eqb (code c) 125 then
          Some (PyDict (dict_set (PyStr k) (PyStr v) acc), rest)
        else None
    | EmptyString => None
    end.
Proof.
  intros Hk Hv Htext.
  change (parse_members (S (S fuel)) acc text) with
    ('(k, rest) ← parse_string (skip_ws text);
     match skip_ws rest with
     | String c rest1 =>
         if Nat.eqb (code c) 58 then
           '(v, rest2) ← parse_value (S fuel) rest1;
           match skip_ws rest2 with
           | String c' rest3 =>
               if Nat.eqb (code c') 44 then
                 parse_members (S fuel) (dict_set (PyStr k) v acc) rest3
               else if Nat.eqb (code c') 125 then
                 Some (PyDict (dict_set (PyStr k) v acc), rest3)
               else None
           | EmptyString => None
           end
         else None
     | EmptyString => None
     end).
  rewrite Htext, parse_string_quote by done.
  change (mbind ?f (Some ?x)) with (f x). cbv beta iota.
  change (skip_ws (": " +:+ ?x)) with (String (Ascii.ascii_of_nat 58) (" " +:+ x)).
  cbv beta iota. change (Nat.eqb (code (Ascii.ascii_of_nat 58)) 58) with true. cbv iota.
  rewrite (parse_value_quoted fuel _ v tail); [done..|].
  change (skip_ws (" " +:+ ?x)) with (skip_ws x). apply skip_ws_quote.
Qed.

Lemma dict_set_fresh (seen : list (string * string)) k v :
  k ∉ seen.*1 →
  dict_set (PyStr k) (PyStr v) (string_entries seen) = string_entries (seen ++ [(k, v)]).
Proof.
  unfold string_entries.
  induction seen as [|[k' v'] seen IH]; intros Hk; [done|].
  apply not_elem_of_cons in Hk as [Hne Hk].
  rewrite <-app_comm_cons, !fmap_cons. cbn [dict_set prod_map fst snd py_eq].
  destruct (String.eqb_spec k k') as [->|_]; [done|]. by rewrite IH.
Qed.

Lemma join_head entries tail :
  entries ≠ [] →
  ∃ text, join ", " (entry_text <$> entries) +:+ tail = String QUOTE_CHAR text.
Proof.
  destruct entries as [|[k v] [|e entries]]; [done|..]; intros _; cbn [fmap list_fmap join];
    unfold entry_text at 1; rewrite !append_assoc, quote_app; eauto.
Qed.

Lemma skip_ws_join entries tail :
  entries ≠ [] →
  skip_ws (join ", " (entry_text <$> entries) +:+ tail) =
    join ", " (entry_text <$> entries) +:+ tail.
Proof. intros Hne. by destruct (join_head entries tail Hne) as [text ->]. Qed.

Lemma parse_members_entries entries seen fuel text rest :
  entries ≠ [] →
  (length entries ≤ fuel)%nat →
  NoDup (seen ++ entries).*1 →
  Forall (λ e, Utf8.text e.1 = true ∧ Utf8.text e.2 = true) entries →
  skip_ws text = join ", " (entry_text <$> entries) +:+ "}" +:+ rest →
  parse_members (S fuel) (string_entries seen) text = Some (PyDict (string_entries (seen ++ entries)), rest).
Proof.
  revert seen fuel text.
  induction entries as [|[k v] entries IH];
    intros seen fuel text Hne Hfuel Hdup Hutf Htext; [done|].
  apply Forall_cons in Hutf as [[Hk Hv] Hutf]. cbn [fst snd] in Hk, Hv.
  destruct fuel as [|fuel]; [simpl in Hfuel; lia|].
  assert (k ∉ seen.*1) as Hfresh.
  { rewrite fmap_app in Hdup. apply NoDup_app in Hdup as (_ & Hdisjoint & _).
    intros Hseen. apply (Hdisjoint k Hseen). left. }
  destruct entries as [|e entries].
  - rewrite (parse_members_step _ _ _ k v ("}" +:+ rest) Hk Hv).
    + change (skip_ws ("}" +:+ rest)) with (String (Ascii.ascii_of_nat 125) rest).
      cbv iota. change (Nat.eqb (code _) 44) with false.
      change (Nat.eqb (code _) 125) with true. cbv iota.
      by rewrite dict_set_fresh.
    + rewrite Htext. cbn [fmap list_fmap join]. unfold entry_text.
      by rewrite !append_assoc.
  - rewrite (parse_members_step _ _ _ k v
               (", " +:+ join ", " (entry_text <$> e :: entries) +:+ "}" +:+ rest) Hk Hv).
    + change (skip_ws (", " +:+ ?x)) with (String (Ascii.ascii_of_nat 44) (" " +:+ x)).
      cbv iota. change (Nat.eqb (code _) 44) with true. cbv iota.
      rewrite dict_set_fresh by done.
      rewrite (IH (seen ++ [(k, v)]) fuel _); [by rewrite <-(assoc_L (++))|done|..].
      * simpl in Hfuel. simpl. lia.
      * by rewrite <-(assoc_L (++)).
      * done.
      * change (skip_ws (" " +:+ ?x)) with (skip_ws x). by apply skip_ws_join.
    + rewrite Htext.
      change (join ", " (entry_text <$> (k, v) :: e :: entries))
        with (entry_text (k, v) +:+ ", " +:+ join ", " (entry_text <$> e :: entries)).
      unfold entry_text at 1. by rewrite !append_assoc.
Qed.

Lemma dumps_keyring entries :
  dumps (Sample.keyring entries) = "{" +:+ join ", " (entry_text <$> entries) +:+ "}".
Proof.
  unfold Sample.keyring, string_entries.
  change (dumps (PyDict ?d))
    with ("{" +:+ join ", " (map (λ kv, dumps_key kv.1 +:+ ": " +:+ dumps kv.2) d) +:+ "}").
  do 3 f_equal. induction entries as [|[k v] entries IH]; [done|].
  rewrite !fmap_cons. change (map ?f (?x :: ?l)) with (f x :: map f l). by f_equal.
Qed.

Lemma join_length entries :
  (length entries ≤ String.length (join ", " (entry_text <$> entries)))%nat.
Proof.
  induction entries as [|[k v] entries IH]; [done|].
  destruct entries as [|e entries].
  - cbn [fmap list_fmap join]. unfold entry_text. rewrite quote_app. simpl. lia.
  - change (join ", " (entry_text <$> (k, v) :: e :: entries))
      with (entry_text (k, v) +:+ ", " +:+ join ", " (entry_text <$> e :: entries)).
    rewrite !append_length. simpl in *. lia.
Qed.

(** What [dumps] writes for a keyring of texts, [loads] reads back. *)
Lemma reference_round_trip entries :
  NoDup entries.*1 →
  Forall (λ e, Utf8.text e.1 = true ∧ Utf8.text e.2 = true) entries →
  loads (dumps (Sample.keyring entries)) = Some (Sample.keyring entries).
Proof.
  intros Hdup Hutf. rewrite dumps_keyring. unfold loads.
  change ("{" +:+ ?x) with (String (Ascii.ascii_of_nat 123) x).
  cbn [String.length].
  change (parse_value (S (S ?n)) (String (Ascii.ascii_of_nat 123) ?x))
    with (match skip_ws x with
          | String c rest =>
              if Nat.eqb (code c) 125 then Some (PyDict [], rest)
              else parse_members (S n) [] x
          | EmptyString => None
          end).
  destruct (decide (entries = [])) as [->|Hne]; [done|].
  rewrite skip_ws_join by done.
  destruct (join_head entries "}" Hne) as [text Htext]. rewrite Htext at 1.
  change (Nat.eqb (code QUOTE_CHAR) 125) with false. cbv iota.
  rewrite (parse_members_entries entries [] _ _ EmptyString); [done..| |done|done|].
  - rewrite append_length. pose proof (join_length entries). lia.
  - by apply skip_ws_join.
Qed.
(** *** What is written is ASCII *)

Lemma ascii_points_from fuel s :
  (String.length s ≤ fuel)%nat → Utf8.ascii s = true →
  forallb (λ n, negb (Utf8.surrogate n)) (Utf8.points_from fuel s) = true.
Proof.
  revert fuel. induction s as [|a s IH]; intros [|fuel] Hlen; simpl in Hlen; try lia; try done.
  cbn [Utf8.ascii]. intros [Ha Hs]%andb_true_iff.
  cbn [Utf8.points_from]. unfold Utf8.decode. rewrite Ha. cbn [forallb].
  rewrite IH by (done || lia). apply N.ltb_lt in Ha.
  unfold Utf8.surrogate. comparisons; try done; lia.
Qed.

Lemma ascii_text s : Utf8.ascii s = true → Utf8.text s = true.
Proof. by apply ascii_points_from. Qed.

Lemma ascii_app (a b : string) : Utf8.ascii (a +:+ b) = Utf8.ascii a && Utf8.ascii b.
Proof.
  induction a as [|x a IH]; [done|].
  rewrite append_cons. cbn [Utf8.ascii]. by rewrite IH, andb_assoc.
Qed.

Lemma ascii_get s n c :
  Utf8.ascii s = true → String.get n s = Some c → (Utf8.byte c < 128)%N.
Proof.
  revert n. induction s as [|x s IH]; intros n; [done|].
  cbn [Utf8.ascii]. intros [Hx Hs]%andb_true_iff.
  destruct n as [|n]; cbn [String.get].
  - intros [= <-]. by apply N.ltb_lt.
  - by apply IH.
Qed.

Lemma ascii_hex_char d : (Utf8.byte (hex_char d) < 128)%N.
Proof.
  unfold hex_char.
  destruct (String.get _ _) as [c|] eqn:Hget; [|done].
  by apply (ascii_get "0123456789abcdef" _ _ eq_refl) in Hget.
Qed.

Lemma ascii_unicode_escape n : Utf8.ascii (unicode_escape n) = true.
Proof.
  unfold unicode_escape, hex4.
  change (Utf8.ascii (BACKSLASH +:+ "u" +:+ String ?a (String ?b (String ?c (String ?d EmptyString)))))
    with (N.ltb (Utf8.byte a) 128 && (N.ltb (Utf8.byte b) 128 &&
            (N.ltb (Utf8.byte c) 128 && (N.ltb (Utf8.byte d) 128 && true)))).
  pose proof ascii_hex_char as Hhex.
  by rewrite !(proj2 (N.ltb_lt _ _) (Hhex _)).
Qed.

Lemma ascii_escape_point n : Utf8.ascii (escape_point n) = true.
Proof.
  unfold escape_point.
  repeat match goal with
         | |- context [N.eqb n ?k] => destruct (N.eqb_spec n k); [reflexivity|]
         end.
  destruct (N.leb_spec 32 n), (N.leb_spec n 126); cbn [andb].
  2-4: destruct (N.ltb_spec n 65536);
    [apply ascii_unicode_escape|cbv zeta; by rewrite ascii_app, !ascii_unicode_escape].
  cbn [Utf8.ascii]. rewrite byte_char by lia. rewrite andb_true_r. apply N.ltb_lt. lia.
Qed.

Lemma ascii_escape s : Utf8.ascii (escape s) = true.
Proof.
  unfold escape. induction (Utf8.points s) as [|n l IH]; [done|].
  rewrite fmap_cons. cbn [foldr]. by rewrite ascii_app, ascii_escape_point, IH.
Qed.

Lemma ascii_quote s : Utf8.ascii (quote s) = true.
Proof. unfold quote. by rewrite !ascii_app, ascii_escape. Qed.

Lemma ascii_join entries : Utf8.ascii (join ", " (entry_text <$> entries)) = true.
Proof.
  induction entries as [|[k v] [|e entries] IH]; [done|..].
  - cbn [fmap list_fmap join]. unfold entry_text. by rewrite !ascii_app, !ascii_quote.
  - change (join ", " (entry_text <$> (k, v) :: e :: entries))
      with (entry_text (k, v) +:+ ", " +:+ join ", " (entry_text <$> e :: entries)).
    unfold entry_text at 1. by rewrite !ascii_app, !ascii_quote, IH.
Qed.

Lemma ascii_dumps_keyring entries : Utf8.ascii (dumps (Sample.keyring entries)) = true.
Proof. by rewrite dumps_keyring, !ascii_app, ascii_join. Qed.







End JsonFacts.

(** ** Saving what was loaded *)

Section RoundTrip.

(** C8.  Saving the keyring that was just loaded and loading again gives
    the same keyring, labels in the same order.  On a disk, with the
    encoder and the decoder of the json module as written out above, for
    every keyring of distinct labels whose labels and addresses are texts:
    when the load returns it, the save writes its encoding over the keyring
    file and returns it, the load that follows reads it back, and a second
    save leaves the file as the first did. *)
Theorem save_after_load_round_trip (home_dir : string) (raises : string → exn)
    (sh : string → gmap string file → gmap string file)
    (entries : list (string * string)) (w : @world file) :
  let platform := reference_platform home_dir in
  let machine := disk raises sh in
  let keyring := Sample.keyring entries in
  let w' := {| files := <[KEYRING_PATH := Regular (json_dumps keyring)]> (files w);
               events := events w |} in
  NoDup entries.*1 →
  Forall (λ e, Utf8.text e.1 = true ∧ Utf8.text e.2 = true) entries →
  load_keyring w = (Ok keyring, w) →
  save_keyring keyring w = (Ok keyring, w') ∧
  load_keyring w' = (Ok keyring, w') ∧
  (loaded ← load_keyring; save_keyring loaded;; load_keyring) w = (Ok keyring, w') ∧
  save_keyring keyring w' = (Ok keyring, w').
Proof.
  intros platform machine keyring w' Hdup Hutf Hload.
  assert (∃ f, write_text (files w !! KEYRING_PATH) (json_dumps keyring) =
                 inr f ∧ f = Regular (json_dumps keyring)) as (f & Hwrite & ->).
  { rewrite (load_keyring_on_disk raises sh w) in Hload.
    destruct (files w !! KEYRING_PATH) as [[bytes| |]|]; [by eexists|done..|by eexists]. }
  assert (save_keyring keyring w = (Ok keyring, w')) as Hsave.
  { unfold save_keyring, open_write, mbind, M_bind. by rewrite Hwrite. }
  assert (load_keyring w' = (Ok keyring, w')) as Hagain.
  { rewrite (load_keyring_on_disk raises sh w'). unfold w'; cbn [files].
    rewrite lookup_insert_eq.
    change (json_dumps keyring) with (Json.dumps (Sample.keyring entries)).
    rewrite (ascii_text _ (ascii_dumps_keyring entries)).
    change (json_loads ?text) with (Json.loads text).
    by rewrite reference_round_trip. }
  split; [done|]. split; [done|]. split.
  - unfold mbind at 1, M_bind at 1. rewrite Hload.
    unfold mbind, M_bind. by rewrite Hsave.
  - unfold save_keyring, open_write, mbind, M_bind. unfold w' at 1; cbn [files].
    rewrite lookup_insert_eq. cbn [write_text machine disk].
    unfold w'; cbn [files events]. by rewrite insert_insert_eq.
Qed.

End RoundTrip.

(** ** The claims on the sample machine *)

Section Witnesses.
#[local] Existing Instance Sample.platform.

Lemma rename_key_raises_witness :
  let w := Sample.with_keyring (Sample.keyring [("a", "1")]) in
  stored_keyring w = PyDict [(PyStr "a", PyStr "1")] ∧
  dict_get (PyStr "a") [(PyStr "a", PyStr "1")] = Some (PyStr "1") ∧
  rename_key [PyStr "a"; PyStr "b"] [] w =
    (Raise (TypeError (MultipleValues "keyring")), logged [mkdir; mkdir] w) ∧
  stored_keyring (logged [mkdir; mkdir] w) = PyDict [(PyStr "a", PyStr "1")].
Proof.
  cbv zeta. split; [vm_compute; reflexivity|]. split; [reflexivity|].
  split; [|vm_compute; reflexivity].
  refine (proj1 (rename_key_raises "a" "b" [(PyStr "a", PyStr "1")] (PyStr "1") "sw" _ _ _));
    [vm_compute; reflexivity | reflexivity].
Defined.

Lemma short_argument_list_overwrites_keyring_witness :
  let w := Sample.with_keyring (Sample.keyring [("a", "1")]) in
  let w' := saved PyNone (logged [mkdir; Stdout "This action requires 2 arguments!"] w) in
  stored_keyring w = PyDict [(PyStr "a", PyStr "1")] ∧
  rename_key [PyStr "a"] [] w = (Ok PyNone, w') ∧
  add_key [PyStr "db"] [] w = (Ok PyNone, w') ∧
  ssh_run [PyStr "a"] [] w = (Ok PyNone, w') ∧
  stored_keyring w' = PyNone.
Proof.
  cbv zeta.
  destruct (short_argument_list_overwrites_keyring
              (Sample.with_keyring (Sample.keyring [("a", "1")])))
    as (Hrename & Hadd & Hrun & _ & Hnext).
  split; [vm_compute; reflexivity|].
  split; [apply Hrename; simpl; lia|].
  split; [apply (Hadd "db" [(PyStr "a", PyStr "1")]); [vm_compute; reflexivity | reflexivity]|].
  split; [apply (Hrun "a" [(PyStr "a", PyStr "1")] (PyStr "1"));
            [vm_compute; reflexivity | reflexivity]|].
  apply Hnext. vm_compute; reflexivity.
Defined.

Lemma validation_order_witness :
  let w := Sample.with_keyring (Sample.keyring [("db", "10.0.0.1")]) in
  add_key [PyStr "db"] [] w =
    (Ok (PyDict [(PyStr "db", PyStr "10.0.0.1")]),
     saved (PyDict [(PyStr "db", PyStr "10.0.0.1")])
       (logged [mkdir; Stdout "The label db is already registered!"] w)).
Proof.
  cbv zeta.
  refine (proj2 (validation_order CAdd (PyStr "db") [] _) "db" _ (PyStr "10.0.0.1") _ _);
    [vm_compute; reflexivity | reflexivity].
Defined.

Lemma remove_unknown_label_witness :
  let w := Sample.with_keyring (Sample.keyring [("db", "10.0.0.1")]) in
  let w' :=
    saved (PyDict [(PyStr "db", PyStr "10.0.0.1")])
      (logged [mkdir; Stdout "ghost is not a valid label!"] w) in
  remove_key [PyStr "ghost"] [] w = (Ok (PyDict [(PyStr "db", PyStr "10.0.0.1")]), w') ∧
  stored_keyring w' = stored_keyring w.
Proof.
  cbv zeta.
  destruct (remove_unknown_label [(PyStr "db", PyStr "10.0.0.1")]
              (Sample.with_keyring (Sample.keyring [("db", "10.0.0.1")])))
    as [Hghost Hany]; [vm_compute; reflexivity|].
  split; [apply Hghost; reflexivity|].
  apply (Hany "ghost"); [reflexivity | vm_compute; reflexivity].
Defined.

Lemma add_registered_label_witness :
  let w := Sample.with_keyring (Sample.keyring [("db", "10.0.0.1")]) in
  let w' :=
    saved (PyDict [(PyStr "db", PyStr "10.0.0.1")])
      (logged [mkdir; Stdout "The label db is already registered!"] w) in
  add_key [PyStr "db"; PyStr "x"] [] w = (Ok (PyDict [(PyStr "db", PyStr "10.0.0.1")]), w') ∧
  stored_keyring w' = stored_keyring w.
Proof.
  cbv zeta.
  destruct (add_registered_label [(PyStr "db", PyStr "10.0.0.1")]
              (Sample.with_keyring (Sample.keyring [("db", "10.0.0.1")])))
    as [Hdb Hany]; [vm_compute; reflexivity|].
  split; [apply (Hdb (PyStr "10.0.0.1")); reflexivity|].
  apply (Hany "db" (PyStr "10.0.0.1") [PyStr "x"]); [reflexivity | vm_compute; reflexivity].
Defined.

Lemma save_after_load_round_trip_witness :
  let machine := Sample.disk in
  let keyring := Sample.keyring [("db", "10.0.0.1"); ("café", "jürgen@example.org")] in
  let w := Sample.on_disk (Regular (json_dumps keyring)) in
  load_keyring w = (Ok keyring, w) ∧
  save_keyring keyring w = (Ok keyring, w) ∧
  (loaded ← load_keyring; save_keyring loaded;; load_keyring) w = (Ok keyring, w).
Proof.
  cbv zeta.
  destruct (save_after_load_round_trip "/home/user" (λ _, JSONDecodeError) (λ _ fs, fs)
              [("db", "10.0.0.1"); ("café", "jürgen@example.org")]
              (Sample.on_disk
                 (Regular (json_dumps
                             (Sample.keyring
                                [("db", "10.0.0.1"); ("café", "jürgen@example.org")])))))
    as (Hsave & Hload & Hboth & _).
  - repeat (apply NoDup_cons; split;
              [intros Hin; repeat (apply elem_of_cons in Hin as [Heq|Hin]; [discriminate Heq|]);
               by apply elem_of_nil in Hin|]).
    apply NoDup_nil_2.
  - repeat (apply Forall_cons; split; [split; vm_compute; reflexivity|]). apply Forall_nil_2.
  - vm_compute. reflexivity.
  - split; [vm_compute; reflexivity|].
    split; [exact Hsave|exact Hboth].
Defined.

Lemma ssh_commands_keep_keyring_witness :
  let w := Sample.with_keyring (Sample.keyring [("db", "admin@10.0.0.1")]) in
  let keyring := PyDict [(PyStr "db", PyStr "admin@10.0.0.1")] in
  ssh_connect [PyStr "db"] [] w =
    (Ok keyring,
     saved keyring
       (logged [mkdir; Stdout "Connecting to admin@10.0.0.1...";
                Subprocess "ssh admin@10.0.0.1"; Stdout "ssh session finished"] w)) ∧
  ssh_run [PyStr "db"; PyStr "uptime"] [] w =
    (Ok keyring,
     saved keyring
       (logged [mkdir; Stdout "Connecting to admin@10.0.0.1...";
                Subprocess "ssh -t admin@10.0.0.1 uptime"; Stdout "ssh session finished"] w)) ∧
  files (ssh_run [PyStr "db"; PyStr "uptime"] [] w).2 =
    <[KEYRING_PATH := json_dumps keyring]> (files w).
Proof.
  cbv zeta.
  destruct (ssh_commands_keep_keyring [(PyStr "db", PyStr "admin@10.0.0.1")]
              (Sample.with_keyring (Sample.keyring [("db", "admin@10.0.0.1")])))
    as [Hregistered Hstarted]; [vm_compute; reflexivity|].
  destruct (Hregistered "db" (PyStr "admin@10.0.0.1")) as [Hconnect Hrun]; [reflexivity|].
  split; [apply Hconnect|]. split; [apply (Hrun "uptime")|].
  apply (Hstarted ssh_run ["db"; "uptime"]); [by right | vm_compute; reflexivity].
Defined.

(** *** Runs on the sample machine *)

(** No keyring file, or one that is not JSON: the empty keyring. *)
Example load_without_file :
  load_keyring Sample.fresh = (Ok (PyDict []), Sample.fresh).
Proof. reflexivity. Qed.

Example load_malformed_file :
  load_keyring (Sample.with_text "db=10.0.0.1") =
    (Ok (PyDict []), Sample.with_text "db=10.0.0.1").
Proof. vm_compute. reflexivity. Qed.

(** The keyring file on a disk: not JSON, a keyring, a JSON value that
    is no mapping, a directory, a file that may not be read. *)
Example load_from_disk :
  let machine := Sample.disk in
  let keyring := Sample.keyring [("db", "10.0.0.1")] in
  (load_keyring (Sample.on_disk (Regular "db=10.0.0.1"))).1 = Ok (PyDict []) ∧
  (load_keyring (Sample.on_disk (Regular (json_dumps keyring)))).1 = Ok keyring ∧
  (load_keyring (Sample.on_disk (Regular "null"))).1 = Ok PyNone ∧
  (load_keyring (Sample.on_disk Directory)).1 = Raise IsADirectoryError ∧
  (load_keyring (Sample.on_disk Locked)).1 = Raise PermissionError.
Proof. cbv zeta. repeat split; vm_compute; reflexivity. Qed.

(** The first [add] on a new machine creates the file. *)
Example add_first_key :
  add_key [PyStr "db"; PyStr "10.0.0.1"] [] Sample.fresh =
    (Ok (Sample.keyring [("db", "10.0.0.1")]),
     saved (Sample.keyring [("db", "10.0.0.1")]) (logged [mkdir] Sample.fresh)).
Proof. vm_compute. reflexivity. Qed.

(** [list] prints the header, then a line per entry. *)
Example list_after_add :
  printed (list_keys [] [] (Sample.with_keyring (Sample.keyring [("db", "10.0.0.1")]))).2 =
    ["LABEL" +:+ TAB +:+ "ADDRESS"; "db" +:+ TAB +:+ "10.0.0.1"].
Proof. vm_compute. reflexivity. Qed.

(** After a command has written [None] to the keyring file, [add] and
    [list] fail on the keyring they load. *)
Example add_after_short_rename :
  let w := (rename_key [PyStr "a"] [] (Sample.with_keyring (Sample.keyring [("a", "1")]))).2 in
  (add_key [PyStr "db"; PyStr "10.0.0.1"] [] w).1 = Raise (TypeError NotIterable) ∧
  (list_keys [] [] w).1 = Raise (AttributeError "items").
Proof. vm_compute. done. Qed.

(** The body of [import], were it given its two arguments by name, merges
    with the incoming value winning. *)
Example import_keyring_body_merges :
  let existing := Sample.keyring [("x", "0"); ("y", "2")] in
  let incoming := Sample.keyring [("x", "1")] in
  let w := {| files := {[ "in.json" := json_dumps incoming ]}; events := [] |} in
  import_keyring_body [] [("keyring", existing); ("filepath", PyStr "in.json")] w =
    (Ok (Sample.keyring [("x", "1"); ("y", "2")]),
     logged [Stdout "Merging current keyring and external keyring..."] w).
Proof. vm_compute. reflexivity. Qed.

(** C4 as it was stated fails.  A keyring file whose only byte is FF is
    not valid JSON, yet the load step returns no mapping, empty or not: it
    raises [UnicodeDecodeError], and [list] ends with it.  And a keyring
    file that holds a JSON array is loaded as a list, which is no
    mapping. *)
Lemma load_keyring_counterexample :
  let bytes := String (Ascii.ascii_of_nat 255) EmptyString in
  let w := Sample.on_disk (Regular bytes) in
  json_loads bytes = None ∧
  ¬ (∃ keyring, (load_keyring (machine := Sample.disk) w).1 = Ok keyring) ∧
  main (machine := Sample.disk) ["sw"; "list"] w =
    (Raise UnicodeDecodeError, logged [mkdir] w) ∧
  load_keyring (machine := Sample.disk) (Sample.on_disk (Regular "[]")) =
    (Ok (PyList []), Sample.on_disk (Regular "[]")).
Proof.
  cbv zeta. split; [vm_compute; reflexivity|]. split.
  - intros [keyring Hload]. vm_compute in Hload. discriminate Hload.
  - split; vm_compute; reflexivity.
Qed.

(** C7 as it was stated fails: on a keyring that has db, the second
    [add] does not print [db is already registered!]. *)
Lemma add_registered_label_counterexample :
  let w := Sample.with_keyring (Sample.keyring [("db", "10.0.0.1")]) in
  ¬ ((add_key [PyStr "db"; PyStr "x"] [] w).1 = Ok (stored_keyring w) ∧
     printed (add_key [PyStr "db"; PyStr "x"] [] w).2 = ["db is already registered!"]).
Proof. cbv zeta. intros [_ Hprinted]. vm_compute in Hprinted. discriminate Hprinted. Qed.

End Witnesses.

(** * Further properties of the commands *)

Section Further.
Context `{Platform}.

Implicit Types (w : @world string) (d : list (pyval * pyval)) (keyring addr : pyval).

Ltac run :=
  repeat progress (unfold mbind, M_bind, mret, M_ret, lift, raise; cbn).

(** ** Dictionaries with string keys *)

Lemma py_eq_str (s : string) (k : pyval) : py_eq (PyStr s) k = true ↔ k = PyStr s.
Proof.
  destruct k; cbn; try (split; [discriminate|intros; discriminate]).
  rewrite String.eqb_eq. split; [by intros ->|by intros [= ->]].
Qed.

Lemma dict_get_str_elem (s : string) d v :
  dict_get (PyStr s) d = Some v → PyStr s ∈ d.*1.
Proof.
  induction d as [|[k v'] d IH]; [done|]. cbn -[py_eq].
  destruct (py_eq (PyStr s) k) eqn:Hk.
  - apply py_eq_str in Hk as ->.
    intros _.
    apply elem_of_cons.
    left.
    reflexivity.
  - intros Hd.
    apply elem_of_cons.
    right.
    by apply IH.
Qed.

Lemma dict_set_absent (k v : pyval) d :
  dict_get k d = None → dict_set k v d = d ++ [(k, v)].
Proof.
  induction d as [|[k' v'] d IH]; [done|]. cbn -[py_eq].
  destruct (py_eq k k'); [done|]. intros Hd. by rewrite IH.
Qed.

Lemma dict_get_appended (s other : string) (v : pyval) d :
  dict_get (PyStr other) (d ++ [(PyStr s, v)]) =
    match dict_get (PyStr other) d with
    | Some v' => Some v'
    | None => if String.eqb other s then Some v else None
    end.
Proof.
  induction d as [|[k' v'] d IH]; [done|]. cbn -[py_eq].
  by destruct (py_eq (PyStr other) k').
Qed.

Lemma dict_del_appended (s : string) (v : pyval) d :
  dict_get (PyStr s) d = None → dict_del (PyStr s) (d ++ [(PyStr s, v)]) = d.
Proof.
  induction d as [|[k' v'] d IH]; cbn -[py_eq].
  - change (py_eq (PyStr s) (PyStr s)) with (String.eqb s s). by rewrite String.eqb_refl.
  - destruct (py_eq (PyStr s) k'); [done|]. intros Hd. by rewrite IH.
Qed.

Lemma dict_get_del_other (s other : string) d :
  other ≠ s → dict_get (PyStr other) (dict_del (PyStr s) d) = dict_get (PyStr other) d.
Proof.
  intros Hne. induction d as [|[k' v'] d IH]; [done|]. cbn -[py_eq].
  destruct (py_eq (PyStr s) k') eqn:Hs.
  - apply py_eq_str in Hs as ->.
    change (py_eq (PyStr other) (PyStr s)) with (String.eqb other s).
    by destruct (String.eqb_spec other s).
  - cbn -[py_eq]. by rewrite IH.
Qed.

Lemma dict_get_del_same (s : string) d :
  NoDup d.*1 → dict_get (PyStr s) (dict_del (PyStr s) d) = None.
Proof.
  induction d as [|[k' v'] d IH]; [done|]. cbn -[py_eq]. intros [Hk Hdup]%NoDup_cons.
  destruct (py_eq (PyStr s) k') eqn:Hs.
  - apply py_eq_str in Hs as ->.
    destruct (dict_get (PyStr s) d) as [v|] eqn:Hd; [|done].
    by apply dict_get_str_elem in Hd.
  - cbn -[py_eq]. rewrite Hs. by apply IH.
Qed.

(** ** The bodies of [add] and [remove] *)

Lemma add_key_body_run (label : string) addr d w :
  add_key_body [PyStr label; addr] [("keyring", PyDict d)] w =
    (Ok (PyDict (dict_set (PyStr label) addr d)), w).
Proof. done. Qed.

Lemma remove_key_body_run (label : string) d addr w :
  dict_get (PyStr label) d = Some addr →
  remove_key_body [PyStr label] [("keyring", PyDict d)] w =
    (Ok (PyDict (dict_del (PyStr label) d)), w).
Proof.
  intros Hd. unfold remove_key_body, def.
  change (bind _ _ _) with
    (inr (B := frame) (A := exn)
       {| locals := [("label", PyStr label); ("keyring", PyDict d)];
          star_args := []; star_kwargs := [] |}).
  run. by rewrite Hd.
Qed.

Lemma add_key_new (label : string) addr d w :
  stored_keyring w = PyDict d →
  dict_get (PyStr label) d = None →
  add_key [PyStr label; addr] [] w =
    (Ok (PyDict (d ++ [(PyStr label, addr)])),
     saved (PyDict (d ++ [(PyStr label, addr)])) (logged [mkdir] w)).
Proof.
  intros Hw Hd. change add_key with (command_fn CAdd).
  rewrite guarded_command_run. cbv zeta. rewrite Hw, (py_in_unregistered _ _ Hd).
  cbn [body]. cbn [must_exist Bool.eqb min_args length Nat.ltb Nat.leb].
  by rewrite add_key_body_run, (dict_set_absent _ _ _ Hd).
Qed.

Lemma remove_key_registered (label : string) addr d w :
  stored_keyring w = PyDict d →
  dict_get (PyStr label) d = Some addr →
  remove_key [PyStr label] [] w =
    (Ok (PyDict (dict_del (PyStr label) d)),
     saved (PyDict (dict_del (PyStr label) d)) (logged [mkdir] w)).
Proof.
  intros Hw Hd. change remove_key with (command_fn CRemove).
  rewrite guarded_command_run. cbv zeta. rewrite Hw, (py_in_registered _ _ _ Hd).
  cbn [body].
  cbn [must_exist Bool.eqb min_args length Nat.ltb Nat.leb].
  by rewrite (remove_key_body_run _ _ _ _ Hd).
Qed.

(** ** Adding and removing *)

(** X1. [add] with a label that is not registered and an address appends
    the entry to the keyring, after the entries already there, and writes
    the keyring back: the label now maps to the address, every other label
    maps to what it mapped to, and nothing is printed. *)
Theorem add_new_label (label : string) addr d w :
  stored_keyring w = PyDict d →
  dict_get (PyStr label) d = None →
  add_key [PyStr label; addr] [] w =
    (Ok (PyDict (d ++ [(PyStr label, addr)])),
     saved (PyDict (d ++ [(PyStr label, addr)])) (logged [mkdir] w)) ∧
  dict_get (PyStr label) (d ++ [(PyStr label, addr)]) = Some addr ∧
  (∀ other : string,
     other ≠ label →
     dict_get (PyStr other) (d ++ [(PyStr label, addr)]) = dict_get (PyStr other) d).
Proof.
  intros Hw Hd. split; [by apply add_key_new|]. split.
  - by rewrite dict_get_appended, Hd, String.eqb_refl.
  - intros other Hne. rewrite dict_get_appended.
    destruct (dict_get (PyStr other) d); [done|].
    by destruct (String.eqb_spec other label).
Qed.

(** X2. [remove] with a registered label deletes that entry and writes the
    keyring back: the label is no longer registered, every other label maps
    to what it mapped to, and nothing is printed. *)
Theorem remove_registered_label (label : string) addr d w :
  stored_keyring w = PyDict d →
  NoDup d.*1 →
  dict_get (PyStr label) d = Some addr →
  remove_key [PyStr label] [] w =
    (Ok (PyDict (dict_del (PyStr label) d)),
     saved (PyDict (dict_del (PyStr label) d)) (logged [mkdir] w)) ∧
  dict_get (PyStr label) (dict_del (PyStr label) d) = None ∧
  (∀ other : string,
     other ≠ label →
     dict_get (PyStr other) (dict_del (PyStr label) d) = dict_get (PyStr other) d).
Proof.
  intros Hw Hdup Hd. split; [by apply remove_key_registered with addr|].
  split; [by apply dict_get_del_same|]. intros other Hne. by apply dict_get_del_other.
Qed.

(** X3. [add] then [remove] of the same label gives the keyring back: when
    the json module decodes the keyring that [add] wrote, the [remove] that
    follows returns the keyring [add] started from and writes it to the
    file. *)
Theorem add_then_remove (label : string) addr d w :
  stored_keyring w = PyDict d →
  dict_get (PyStr label) d = None →
  json_loads (json_dumps (PyDict (d ++ [(PyStr label, addr)]))) =
    Some (PyDict (d ++ [(PyStr label, addr)])) →
  let w1 := (add_key [PyStr label; addr] [] w).2 in
  remove_key [PyStr label] [] w1 =
    (Ok (PyDict d), saved (PyDict d) (logged [mkdir; mkdir] w)).
Proof.
  intros Hw Hd Hjson. cbv zeta. rewrite (add_key_new _ _ _ _ Hw Hd). cbn [snd].
  rewrite (remove_key_registered label addr (d ++ [(PyStr label, addr)])).
  - rewrite (dict_del_appended _ _ _ Hd). f_equal.
    unfold saved, logged; cbn [files events]. by rewrite insert_insert_eq, <-(assoc_L (++)).
  - by apply stored_keyring_saved.
  - by rewrite dict_get_appended, Hd, String.eqb_refl.
Qed.

(** X4. The same [add] twice: when the json module decodes the keyring
    that the first [add] wrote, the second is refused with the
    already-registered message, whatever address it brings, and writes back
    the keyring of the first. *)
Theorem add_twice (label : string) addr addr' d w :
  stored_keyring w = PyDict d →
  dict_get (PyStr label) d = None →
  json_loads (json_dumps (PyDict (d ++ [(PyStr label, addr)]))) =
    Some (PyDict (d ++ [(PyStr label, addr)])) →
  let w1 := (add_key [PyStr label; addr] [] w).2 in
  add_key [PyStr label; addr'] [] w1 =
    (Ok (PyDict (d ++ [(PyStr label, addr)])),
     saved (PyDict (d ++ [(PyStr label, addr)]))
       (logged [mkdir; mkdir; Stdout ("The label " +:+ label +:+ " is already registered!")] w)).
Proof.
  intros Hw Hd Hjson. cbv zeta. rewrite (add_key_new _ _ _ _ Hw Hd). cbn [snd].
  change add_key with (command_fn CAdd).
  rewrite (guarded_command_refused CAdd label [addr'] (d ++ [(PyStr label, addr)])).
  - f_equal. unfold saved, logged; cbn [files events].
    by rewrite insert_insert_eq, <-(assoc_L (++)).
  - by apply stored_keyring_saved.
  - apply py_in_registered with addr. by rewrite dict_get_appended, Hd, String.eqb_refl.
Qed.

(** ** [rename] and [import] *)

Lemma rename_key_body_two (label new_label : string) keyring w :
  rename_key_body [PyStr label; PyStr new_label] [("keyring", keyring)] w =
    match py_getitem keyring (PyStr label) with
    | inl e => (Raise e, w)
    | inr _ => (Raise (TypeError (MultipleValues "keyring")), logged [mkdir] w)
    end.
Proof.
  unfold rename_key_body, def.
  change (bind _ _ _) with
    (inr (B := frame) (A := exn)
       {| locals := [("label", PyStr label); ("new_label", PyStr new_label);
                     ("keyring", keyring)];
          star_args := []; star_kwargs := [] |}).
  unfold mbind, M_bind, lift at 1, mret at 1, M_ret.
  change (var _ "label") with (PyStr label).
  change (var _ "new_label") with (PyStr new_label).
  change (var _ "keyring") with keyring.
  destruct (py_getitem keyring (PyStr label)) as [e|addr]; [done|].
  unfold lift, mret, M_ret. by rewrite add_key_given_keyring.
Qed.

Lemma rename_key_two (label new_label : string) w :
  rename_key [PyStr label; PyStr new_label] [] w =
    match py_getitem (stored_keyring w) (PyStr label) with
    | inl e => (Raise e, logged [mkdir] w)
    | inr _ => (Raise (TypeError (MultipleValues "keyring")), logged [mkdir; mkdir] w)
    end.
Proof.
  unfold rename_key. rewrite open_keyring_run.
  change ([] ++ ?l) with l. rewrite call_keyring, required_argument_count_run.
  change (Nat.ltb _ 2) with false. cbv iota. rewrite rename_key_body_two.
  destruct (py_getitem _ _); [done|]. by rewrite logged_logged.
Qed.

(** X5. [rename] of a label that is not registered ends in a [KeyError]
    for that label: the keyring is indexed before anything is checked.
    Nothing is printed and the keyring file is not written. *)
Theorem rename_unregistered_label (label new_label : string) d prog w :
  stored_keyring w = PyDict d →
  dict_get (PyStr label) d = None →
  rename_key [PyStr label; PyStr new_label] [] w =
    (Raise (KeyError (PyStr label)), logged [mkdir] w) ∧
  main [prog; "rename"; label; new_label] w =
    (Raise (KeyError (PyStr label)), logged [mkdir] w).
Proof.
  intros Hw Hd.
  assert (rename_key [PyStr label; PyStr new_label] [] w =
            (Raise (KeyError (PyStr label)), logged [mkdir] w)) as Hfn.
  { rewrite rename_key_two, Hw. cbn -[dict_get]. by rewrite Hd. }
  split; [done|].
  rewrite (main_run _ _ _ rename_key); [|done].
  change (PyStr <$> _) with [PyStr label; PyStr new_label]. by rewrite Hfn.
Qed.

(** X6. [rename] never returns a keyring, whatever the stored keyring and
    the arguments of the command line.  With fewer than two arguments it
    prints the argument-count message and the keyring file is rewritten to
    hold [None]; with two or more it raises, and no file has changed. *)
Theorem rename_key_never_renames (args : list string) w :
  ((length args < 2)%nat ∧
   rename_key (PyStr <$> args) [] w =
     (Ok PyNone,
      saved PyNone (logged [mkdir; Stdout "This action requires 2 arguments!"] w))) ∨
  ((2 ≤ length args)%nat ∧
   ∃ e w', rename_key (PyStr <$> args) [] w = (Raise e, w') ∧ files w' = files w).
Proof.
  destruct args as [|label [|new_label [|extra args]]].
  - left. split; [simpl; lia|].
    unfold rename_key. rewrite open_keyring_run.
    change ([] ++ ?l) with l. rewrite call_keyring, required_argument_count_run.
    by rewrite logged_logged.
  - left. split; [simpl; lia|].
    unfold rename_key. rewrite open_keyring_run.
    change ([] ++ ?l) with l. rewrite call_keyring, required_argument_count_run.
    by rewrite logged_logged.
  - right. split; [simpl; lia|].
    change (PyStr <$> _) with [PyStr label; PyStr new_label]. rewrite rename_key_two.
    destruct (py_getitem _ _); eauto.
  - right. split; [simpl; lia|].
    change (PyStr <$> _)
      with (PyStr label :: PyStr new_label :: PyStr extra :: (PyStr <$> args)).
    unfold rename_key. rewrite open_keyring_run.
    change ([] ++ ?l) with l. rewrite call_keyring, required_argument_count_run.
    change (Nat.ltb _ 2) with false. cbv iota.
    change (rename_key_body _ _ _)
      with (Raise (A := pyval) (TypeError (MultipleValues "keyring")), logged [mkdir] w).
    eauto.
Qed.

(** X7. [import] without a file prints the argument-count message and,
    as [required_argument_count] returns [None] to [open_keyring], rewrites
    the keyring file to hold [None]. *)
Theorem import_without_file prog w :
  import_keyring [] [] w =
    (Ok PyNone,
     saved PyNone (logged [mkdir; Stdout "This action requires 1 arguments!"] w)) ∧
  main [prog; "import"] w =
    (Ok PyNone,
     saved PyNone (logged [mkdir; Stdout "This action requires 1 arguments!"] w)).
Proof.
  assert (import_keyring [] [] w =
            (Ok PyNone,
             saved PyNone (logged [mkdir; Stdout "This action requires 1 arguments!"] w)))
    as Hfn.
  { unfold import_keyring. rewrite open_keyring_run.
    change ([] ++ ?l) with l. rewrite call_keyring, required_argument_count_run.
    by rewrite logged_logged. }
  split; [done|].
  rewrite (main_run _ _ _ import_keyring); [|done].
  change (PyStr <$> []) with (@nil pyval). by rewrite Hfn.
Qed.

(** ** The commands that only read *)

Lemma logged_nil w : logged [] w = w.
Proof. destruct w. unfold logged; cbn [files events]. by rewrite app_nil_r. Qed.

Lemma for_each_list_line d w :
  for_each d (λ '(key, addr), print (py_format key +:+ TAB +:+ py_format addr)) w =
    (Ok (), logged (list_line <$> d) w).
Proof.
  revert w. induction d as [|[key addr] d IH]; intros w.
  - by rewrite logged_nil.
  - cbn [for_each]. unfold mbind, M_bind.
    change (print ?line w) with (Ok (), logged [Stdout line] w). cbv beta iota.
    by rewrite IH, logged_logged.
Qed.

Lemma list_keys_body_run d w :
  list_keys_body [] [("keyring", PyDict d)] w =
    (Ok (PyDict d), logged (Stdout ("LABEL" +:+ TAB +:+ "ADDRESS") :: (list_line <$> d)) w).
Proof.
  unfold list_keys_body, def.
  change (bind _ _ _) with
    (inr (B := frame) (A := exn)
       {| locals := [("keyring", PyDict d)]; star_args := []; star_kwargs := [] |}).
  unfold mbind, M_bind, lift, mret, M_ret.
  change (var _ "keyring") with (PyDict d).
  change (print ?line w) with (Ok (), logged [Stdout line] w). cbv beta iota.
  cbn [py_items]. rewrite for_each_list_line. by rewrite logged_logged.
Qed.

(** X8. [list] prints the header line, then a line for each entry of the
    keyring in the order of the keyring, label and address separated by a
    tab; it returns the keyring and writes no file.  Given any argument it
    raises before printing. *)
Theorem list_keys_prints_entries d w :
  stored_keyring w = PyDict d →
  list_keys [] [] w =
    (Ok (PyDict d),
     logged (mkdir :: Stdout ("LABEL" +:+ TAB +:+ "ADDRESS") :: (list_line <$> d)) w) ∧
  (∀ (arg : pyval) rest,
     list_keys (arg :: rest) [] w =
       (Raise (TypeError (MultipleValues "keyring")), logged [mkdir] w)).
Proof.
  intros Hw. split.
  - unfold list_keys. rewrite open_keyring_run.
    change ([] ++ ?l) with l. rewrite call_keyring, Hw, list_keys_body_run.
    by rewrite logged_logged.
  - intros arg rest. unfold list_keys. rewrite open_keyring_run.
    change ([] ++ ?l) with l. rewrite call_keyring. by destruct rest.
Qed.

(** X9. [export] prints one line, the encoding of the keyring it loaded,
    and writes no file.  When the json module decodes what it encoded, a
    keyring file that holds the exported line is loaded as the exported
    keyring. *)
Theorem export_keyring_prints_keyring w :
  export_keyring [] [] w =
    (Ok (stored_keyring w), logged [mkdir; Stdout (json_dumps (stored_keyring w))] w) ∧
  (∀ w0,
     json_loads (json_dumps (stored_keyring w)) = Some (stored_keyring w) →
     files w0 !! KEYRING_PATH = Some (json_dumps (stored_keyring w)) →
     stored_keyring w0 = stored_keyring w).
Proof.
  split.
  - unfold export_keyring. rewrite open_keyring_run.
    change ([] ++ ?l) with l. rewrite call_keyring.
    change (export_keyring_body _ _ _)
      with (Ok (stored_keyring w),
            logged [Stdout (json_dumps (stored_keyring w))] (logged [mkdir] w)).
    by rewrite logged_logged.
  - intros w0 Hjson Hfile. unfold stored_keyring at 1. by rewrite Hfile, Hjson.
Qed.

(** X10. [main] with no command, or with a command that is not in the
    table, prints the thirteen lines of the usage and exits: no shell
    command is started and no file is read or written. *)
Theorem main_prints_usage prog w :
  main [prog] w = (Raise SystemExit, logged (Stdout <$> usage_lines) w) ∧
  (∀ (name : string) args,
     name ∉ ["version"; "list"; "add"; "rename"; "remove"; "connect"; "export";
             "import"; "run"] →
     main (prog :: name :: args) w =
       (Raise SystemExit, logged (Stdout <$> usage_lines) w)).
Proof.
  assert (print_usage w = (Ok (), logged (Stdout <$> usage_lines) w)) as Husage.
  { unfold print_usage, mbind, M_bind, print, emit, logged; cbn [files events].
    by rewrite <-!(assoc_L (++)). }
  split.
  - unfold main. cbn [length Nat.eqb]. unfold mbind, M_bind. by rewrite Husage.
  - intros name args Hname. unfold main. change (Nat.eqb _ 1) with false. cbv iota.
    change (_ !! 1%nat) with (Some name).
    unfold mbind, M_bind, lift, from_option, mret at 1, M_ret.
    assert (lookup_command name commands = None) as ->.
    { unfold commands. cbn [lookup_command].
      repeat match goal with
             | |- context [String.eqb name ?known] =>
                 destruct (String.eqb_spec name known) as [->|_];
                   [exfalso; apply Hname; set_solver|]
             end.
      done. }
    by rewrite Husage.
Qed.

(** ** Arguments the commands do not expect *)

(** X11. A keyring file that holds [null], which is what a command leaves
    behind when its argument count fails, stops the program: every guarded
    command given a label raises [TypeError] on the membership test, [list]
    raises [AttributeError] after its header line, [rename] with two
    arguments raises [TypeError] on the subscript, and none of them writes
    the file again. *)
Theorem none_keyring_stops_commands w :
  stored_keyring w = PyNone →
  (∀ c (label : pyval) rest,
     command_fn c (label :: rest) [] w = (Raise (TypeError NotIterable), logged [mkdir] w)) ∧
  list_keys [] [] w =
    (Raise (AttributeError "items"),
     logged [mkdir; Stdout ("LABEL" +:+ TAB +:+ "ADDRESS")] w) ∧
  (∀ label new_label : string,
     rename_key [PyStr label; PyStr new_label] [] w =
       (Raise (TypeError NotSubscriptable), logged [mkdir] w)).
Proof.
  intros Hw. repeat split.
  - intros c label rest. rewrite guarded_command_run. cbv zeta. by rewrite Hw.
  - unfold list_keys. rewrite open_keyring_run.
    change ([] ++ ?l) with l. rewrite call_keyring, Hw.
    change (list_keys_body _ _ _)
      with (Raise (A := pyval) (AttributeError "items"),
            logged [Stdout ("LABEL" +:+ TAB +:+ "ADDRESS")] (logged [mkdir] w)).
    by rewrite logged_logged.
  - intros label new_label. by rewrite rename_key_two, Hw.
Qed.

(** X12. A guarded command whose label passes its check and that is given
    more arguments than its body has parameters raises [TypeError]: the
    surplus argument takes the place of the keyring, which then arrives a
    second time by keyword.  Nothing is printed, no SSH client is started
    and the keyring file is not written. *)
Theorem surplus_argument_raises c (label : pyval) rest w :
  py_in label (stored_keyring w) = inr (must_exist c) →
  (min_args c < length (label :: rest))%nat →
  command_fn c (label :: rest) [] w =
    (Raise (TypeError (MultipleValues "keyring")), logged [mkdir] w).
Proof.
  intros Hin Hlen. rewrite guarded_command_run. cbv zeta. rewrite Hin.
  rewrite Bool.eqb_reflx.
  destruct (Nat.ltb_spec (length (label :: rest)) (min_args c)) as [Hlt|_]; [lia|].
  destruct c; cbn [min_args length] in Hlen; cbn [body].
  - destruct rest as [|addr [|extra rest]]; [simpl in Hlen; lia..|done].
  - destruct rest as [|extra rest]; [simpl in Hlen; lia|done].
  - destruct rest as [|extra rest]; [simpl in Hlen; lia|done].
  - destruct rest as [|command [|extra rest]]; [simpl in Hlen; lia..|done].
Qed.

(** X13. The SSH client is started for a registered label only.  When
    [connect] has started it, the command line held exactly a label, and the
    label is registered; when [run] has, exactly a label and a command. *)
Theorem ssh_started_only_for_registered_label (args : list string) d w :
  stored_keyring w = PyDict d →
  (ssh_started w (ssh_connect (PyStr <$> args) [] w).2 = true →
   ∃ (label : string) addr, args = [label] ∧ dict_get (PyStr label) d = Some addr) ∧
  (ssh_started w (ssh_run (PyStr <$> args) [] w).2 = true →
   ∃ (label command : string) addr,
     args = [label; command] ∧ dict_get (PyStr label) d = Some addr).
Proof.
  intros Hw. split; intros Hstarted.
  - destruct (ssh_connect_cases args d w Hw) as [?|Hnot]; [done|congruence].
  - destruct (ssh_run_cases args d w Hw) as [?|Hnot]; [done|congruence].
Qed.

(** ** Which files a command can change *)

Section Confined.
Context {node : Type} {machine : Runtime node} (path : string).

Lemma confined_ret {A} (a : A) : confined path (mret a : M A).
Proof. intros w0. exists []. by rewrite app_nil_r. Qed.

Lemma confined_raise {A} e : confined path (raise e : M A).
Proof. intros w0. exists []. by rewrite app_nil_r. Qed.

Lemma confined_lift {A} (r : exn + A) : confined path (lift r).
Proof. destruct r; [apply confined_raise|apply confined_ret]. Qed.

Lemma confined_bind {A B} (m : M A) (f : A → M B) :
  confined path m → (∀ a, confined path (f a)) → confined path (m ≫= f).
Proof.
  intros Hm Hf w0. unfold mbind, M_bind.
  destruct (Hm w0) as (es & Hev & Hown & Hfiles).
  destruct (m w0) as [[a|e] w1]; cbn [snd] in *; [|by exists es].
  destruct (Hf a w1) as (es' & Hev' & Hown' & Hfiles').
  exists (es ++ es'). split; [by rewrite Hev', Hev, (assoc_L (++))|].
  split; [by apply Forall_app|].
  intros [Hs Hs']%Forall_app. by rewrite Hfiles', Hfiles.
Qed.

Lemma confined_print line : confined path (print line).
Proof. intros w0. exists [Stdout line]. split; [done|]. split; [by apply Forall_singleton|done]. Qed.

Lemma confined_subprocess_run cmd : own_command cmd → confined path (subprocess_run cmd).
Proof.
  intros Hcmd w0. exists [Subprocess cmd]. split; [done|]. split; [by apply Forall_singleton|].
  intros Hs%Forall_inv. apply Hs.
Qed.

Lemma confined_open_read p : confined path (open_read p).
Proof.
  intros w0. exists []. rewrite app_nil_r. unfold open_read.
  by destruct (files w0 !! p).
Qed.

Lemma confined_open_write p text : p ≠ path → confined path (open_write p text).
Proof.
  intros Hp w0. exists []. rewrite app_nil_r. unfold open_write.
  destruct (write_text (files w0 !! p) text) as [e|f]; [done|].
  cbn [snd files events]. split; [done|]. split; [done|]. intros _.
  by apply lookup_insert_ne.
Qed.

Lemma confined_try_except {A} (m handler : M A) caught :
  confined path m → confined path handler → confined path (try_except m caught handler).
Proof.
  intros Hm Hh w0. unfold try_except.
  destruct (Hm w0) as (es & Hev & Hown & Hfiles).
  destruct (m w0) as [[a|e] w1]; cbn [snd] in *; [by exists es|].
  destruct (caught e); [|by exists es].
  destruct (Hh w1) as (es' & Hev' & Hown' & Hfiles').
  exists (es ++ es'). split; [by rewrite Hev', Hev, (assoc_L (++))|].
  split; [by apply Forall_app|].
  intros [Hs Hs']%Forall_app. by rewrite Hfiles', Hfiles.
Qed.

Lemma confined_for_each {A} (l : list A) (f : A → M unit) :
  (∀ a, confined path (f a)) → confined path (for_each l f).
Proof.
  intros Hf. induction l as [|a l IH]; [apply confined_ret|].
  cbn [for_each]. by apply confined_bind.
Qed.

Lemma confined_call (fn : pyfun) args kws :
  (∀ args kws, confined path (fn args kws)) → confined path (call fn args kws).
Proof. intros Hfn. unfold call. destruct (repeated_keyword _ _); [apply confined_raise|done]. Qed.

Lemma confined_def sg (body : frame → M pyval) args kws :
  (∀ fr, confined path (body fr)) → confined path (def sg body args kws).
Proof. intros Hbody. unfold def. apply confined_bind; [apply confined_lift|done]. Qed.

Ltac confined_step :=
  lazymatch goal with
  | |- confined _ (mbind _ _) => apply confined_bind
  | |- confined _ (def _ _ _ _) => apply confined_def
  | |- confined _ (call _ _ _) => apply confined_call
  | |- confined _ (for_each _ _) => apply confined_for_each
  | |- confined _ (lift _) => apply confined_lift
  | |- confined _ (mret _) => apply confined_ret
  | |- confined _ (raise _) => apply confined_raise
  | |- confined _ (print _) => apply confined_print
  | |- confined _ (open_read _) => apply confined_open_read
  | |- confined _ (if ?b then _ else _) => destruct b
  | |- confined _ (match ?x with _ => _ end) => destruct x
  | |- confined _ _ => fail
  | |- _ => intro
  end.

Ltac confined := repeat confined_step.

Lemma confined_open_keyring write (fn : pyfun) args kws :
  (write = true → path ≠ KEYRING_PATH) →
  (∀ args kws, confined path (fn args kws)) →
  confined path (open_keyring write fn args kws).
Proof.
  intros Hwrite Hfn. unfold open_keyring, load_keyring, save_keyring.
  confined; try done.
  - apply confined_subprocess_run. by left.
  - apply confined_try_except; confined.
  - apply confined_open_write. intros Heq. by apply Hwrite.
Qed.

Lemma confined_required_argument_count n (fn : pyfun) args kws :
  (∀ args kws, confined path (fn args kws)) →
  confined path (required_argument_count n fn args kws).
Proof. intros Hfn. unfold required_argument_count. confined; done. Qed.

Lemma confined_validate_label exists_ (fn : pyfun) args kws :
  (∀ args kws, confined path (fn args kws)) →
  confined path (validate_label exists_ fn args kws).
Proof. intros Hfn. unfold validate_label. confined; done. Qed.

Lemma own_command_ssh (x : string) : own_command ("ssh " +:+ x).
Proof. right. destruct x; reflexivity. Qed.

Lemma confined_guarded c args kws :
  path ≠ KEYRING_PATH → confined path (command_fn c args kws).
Proof.
  intros Hpath.
  assert (∀ args kws, confined path (body c args kws)) as Hbody.
  { clear args kws. intros args kws.
    destruct c; cbn [body];
      unfold add_key_body, remove_key_body, ssh_connect_body, ssh_run_body;
      confined; apply confined_subprocess_run; apply own_command_ssh. }
  destruct c; cbn [command_fn]; unfold add_key, remove_key, ssh_connect, ssh_run;
    (apply confined_open_keyring; [done|]); intros; apply confined_validate_label;
    intros; apply confined_required_argument_count; apply Hbody.
Qed.

Lemma confined_rename_key args kws :
  path ≠ KEYRING_PATH → confined path (rename_key args kws).
Proof.
  intros Hpath. unfold rename_key.
  apply confined_open_keyring; [done|]. intros; apply confined_required_argument_count.
  clear args kws. intros args kws. unfold rename_key_body. confined.
  - by apply (confined_guarded CAdd).
  - by apply (confined_guarded CRemove).
Qed.

Lemma confined_import_keyring args kws :
  path ≠ KEYRING_PATH → confined path (import_keyring args kws).
Proof.
  intros Hpath. unfold import_keyring.
  apply confined_open_keyring; [done|]. intros; apply confined_required_argument_count.
  clear args kws. intros args kws. unfold import_keyring_body, open_read_at. confined.
Qed.

Lemma confined_list_keys args kws : confined path (list_keys args kws).
Proof.
  unfold list_keys. apply confined_open_keyring; [done|].
  clear args kws. intros args kws. unfold list_keys_body. confined.
Qed.

Lemma confined_export_keyring args kws : confined path (export_keyring args kws).
Proof.
  unfold export_keyring. apply confined_open_keyring; [done|].
  clear args kws. intros args kws. unfold export_keyring_body. confined.
Qed.

Lemma confined_print_version args kws : confined path (print_version args kws).
Proof. unfold print_version. confined. Qed.

Lemma confined_command name fn args kws :
  path ≠ KEYRING_PATH →
  lookup_command name commands = Some fn →
  confined path (fn args kws).
Proof.
  intros Hpath. unfold commands. cbn [lookup_command].
  repeat match goal with
         | |- context [String.eqb name ?known] => destruct (String.eqb name known)
         end;
    intros [= <-].
  - apply confined_print_version.
  - apply confined_list_keys.
  - by apply (confined_guarded CAdd).
  - by apply confined_rename_key.
  - by apply (confined_guarded CRemove).
  - by apply (confined_guarded CConnect).
  - apply confined_export_keyring.
  - by apply confined_import_keyring.
  - by apply (confined_guarded CRun).
Qed.

Lemma confined_main argv : path ≠ KEYRING_PATH → confined path (main argv).
Proof.
  intros Hpath. unfold main, exit, print_usage.
  destruct (Nat.eqb (length argv) 1); [confined|].
  apply confined_bind; [confined|]. intros command.
  destruct (lookup_command command commands) as [fn|] eqn:Hfn; [|confined].
  apply confined_bind; [|confined]. by apply (confined_command command).
Qed.

Lemma Forall_started (P : string → Prop) (es : list event) :
  Forall (λ e, match e with Subprocess cmd => P cmd | Stdout _ => True end) es ↔
  Forall P (omap (λ e, match e with Subprocess cmd => Some cmd | Stdout _ => None end) es).
Proof.
  induction es as [|[line|cmd] es IH]; cbn [omap list_omap].
  - split; constructor.
  - rewrite Forall_cons. tauto.
  - rewrite !Forall_cons. tauto.
Qed.

(** X14. On every machine and whatever the command line, the command
    lines that [main] hands to the shell are [mkdir -p] on the data
    directory and the [ssh] command lines of [connect] and [run], and
    [main] itself writes the keyring file only: a path that is not the
    keyring file and that the commands started leave as it is holds after
    [main] what it held before, whether [main] returned or raised. *)
Theorem main_changes_only_keyring_file (argv : list string) (w : @world node) :
  path ≠ KEYRING_PATH →
  Forall own_command (started w (main argv w).2) ∧
  (Forall (spares path) (started w (main argv w).2) →
   files (main argv w).2 !! path = files w !! path).
Proof.
  intros Hpath. destruct (confined_main argv Hpath w) as (es & Hev & Hown & Hfiles).
  unfold started. rewrite Hev, drop_app_length.
  split; [by apply Forall_started|]. intros Hs. by apply Hfiles, Forall_started.
Qed.

End Confined.

Lemma spares_text (path cmd : string) : spares path cmd.
Proof. by intros fs. Qed.

Lemma confined_text {A} (m : M A) w :
  (∀ path, confined path m) → files (m w).2 = files w.
Proof.
  intros Hm. apply map_eq. intros path.
  destruct (Hm path w) as (es & _ & _ & Hfiles). apply Hfiles.
  apply Forall_forall. intros [line|cmd] _; [done|apply spares_text].
Qed.

(** X15. [version], [list] and [export] change no file at all, whatever
    their arguments and whether they return or raise. *)
Theorem reading_commands_change_no_file args kws w :
  files (print_version args kws w).2 = files w ∧
  files (list_keys args kws w).2 = files w ∧
  files (export_keyring args kws w).2 = files w.
Proof.
  repeat split; apply confined_text; intros path.
  - apply confined_print_version.
  - apply confined_list_keys.
  - apply confined_export_keyring.
Qed.

(** ** The merge of [import] *)

Lemma py_eq_str_r (k : pyval) (s : string) : py_eq k (PyStr s) = true → k = PyStr s.
Proof. destruct k; cbn; try discriminate. by intros ->%String.eqb_eq. Qed.

Lemma py_eq_str_congr (s : string) (k k' : pyval) :
  py_eq k k' = true → py_eq (PyStr s) k = py_eq (PyStr s) k'.
Proof.
  intros Hk.
  destruct (py_eq (PyStr s) k) eqn:H1, (py_eq (PyStr s) k') eqn:H2; try done.
  - apply py_eq_str in H1 as ->. by rewrite Hk in H2.
  - apply py_eq_str in H2 as ->. apply py_eq_str_r in Hk as ->.
    cbn in H1. by rewrite String.eqb_refl in H1.
Qed.

Lemma dict_get_set_str (s : string) (k v : pyval) d :
  dict_get (PyStr s) (dict_set k v d) =
    if py_eq (PyStr s) k then Some v else dict_get (PyStr s) d.
Proof.
  induction d as [|[k' v'] d IH]; [done|]. cbn -[py_eq].
  destruct (py_eq k k') eqn:Hk; cbn -[py_eq].
  - rewrite (py_eq_str_congr s k k' Hk). by destruct (py_eq (PyStr s) k').
  - rewrite IH. destruct (py_eq (PyStr s) k') eqn:H2; [|done].
    destruct (py_eq (PyStr s) k) eqn:H1; [|done].
    apply py_eq_str in H1 as ->. apply py_eq_str in H2 as ->.
    cbn in Hk. by rewrite String.eqb_refl in Hk.
Qed.

Lemma dict_get_update (s : string) d e :
  NoDup e.*1 →
  dict_get (PyStr s) (dict_update d e) =
    match dict_get (PyStr s) e with
    | Some v => Some v
    | None => dict_get (PyStr s) d
    end.
Proof.
  unfold dict_update. revert d.
  induction e as [|[k v] e IH]; intros d Hdup; [done|].
  apply NoDup_cons in Hdup as [Hk Hdup]. cbn -[py_eq dict_set].
  rewrite (IH _ Hdup), dict_get_set_str.
  destruct (py_eq (PyStr s) k) eqn:Hs; [|done].
  apply py_eq_str in Hs as ->.
  destruct (dict_get (PyStr s) e) as [v'|] eqn:He; [|done].
  by apply dict_get_str_elem in He.
Qed.

(** X16. The function [import_keyring] itself, given its two arguments by
    name, prints its message, reads the file and returns the union of the
    two keyrings in which the incoming address wins: a label maps to what
    the file maps it to, or else to what the keyring mapped it to. *)
Theorem import_body_merge_is_right_biased d e (path text : string) w :
  files w !! path = Some text →
  json_loads text = Some (PyDict e) →
  NoDup d.*1 → NoDup e.*1 →
  ∃ merged,
    import_keyring_body [] [("keyring", PyDict d); ("filepath", PyStr path)] w =
      (Ok (PyDict merged),
       logged [Stdout "Merging current keyring and external keyring..."] w) ∧
    ∀ label : string,
      dict_get (PyStr label) merged =
        match dict_get (PyStr label) e with
        | Some addr => Some addr
        | None => dict_get (PyStr label) d
        end.
Proof.
  intros Hfile Hjson Hd He. exists (dict_update (dict_update [] d) e). split.
  - unfold import_keyring_body, def.
    change (bind _ _ _) with
      (inr (B := frame) (A := exn)
         {| locals := [("keyring", PyDict d); ("filepath", PyStr path)];
            star_args := []; star_kwargs := [] |}).
    unfold mbind, M_bind, lift at 1, mret at 1, M_ret.
    change (var _ "keyring") with (PyDict d).
    change (var _ "filepath") with (PyStr path).
    change (print ?line w) with (Ok (), logged [Stdout line] w). cbv beta iota.
    unfold open_read_at, open_read. cbn [files logged]. rewrite Hfile.
    cbn [read_text text_files]. rewrite Hjson. done.
  - intros label. rewrite (dict_get_update _ _ _ He), (dict_get_update _ _ _ Hd).
    by destruct (dict_get (PyStr label) e), (dict_get (PyStr label) d).
Qed.

(** X17. Given its arguments by name, [import_keyring] lets a missing
    import file and an import file that is not JSON through as exceptions,
    after its message: unlike the keyring file, the import file is not
    taken for an empty keyring. *)
Theorem import_body_errors_propagate keyring (path : string) w :
  (files w !! path = None →
   import_keyring_body [] [("keyring", keyring); ("filepath", PyStr path)] w =
     (Raise (FileNotFoundError path),
      logged [Stdout "Merging current keyring and external keyring..."] w)) ∧
  (∀ text,
     files w !! path = Some text → json_loads text = None →
     import_keyring_body [] [("keyring", keyring); ("filepath", PyStr path)] w =
       (Raise JSONDecodeError,
        logged [Stdout "Merging current keyring and external keyring..."] w)).
Proof.
  assert (import_keyring_body [] [("keyring", keyring); ("filepath", PyStr path)] w =
            match files w !! path with
            | None =>
                (Raise (FileNotFoundError path),
                 logged [Stdout "Merging current keyring and external keyring..."] w)
            | Some text =>
                match json_loads text with
                | None =>
                    (Raise JSONDecodeError,
                     logged [Stdout "Merging current keyring and external keyring..."] w)
                | Some new_keys =>
                    match py_merge keyring new_keys with
                    | inl e =>
                        (Raise e,
                         logged [Stdout "Merging current keyring and external keyring..."] w)
                    | inr merged =>
                        (Ok merged,
                         logged [Stdout "Merging current keyring and external keyring..."] w)
                    end
                end
            end) as Hbody.
  { unfold import_keyring_body, def.
    change (bind _ _ _) with
      (inr (B := frame) (A := exn)
         {| locals := [("keyring", keyring); ("filepath", PyStr path)];
            star_args := []; star_kwargs := [] |}).
    unfold mbind, M_bind, lift at 1, mret at 1, M_ret.
    change (var _ "keyring") with keyring.
    change (var _ "filepath") with (PyStr path).
    change (print ?line w) with (Ok (), logged [Stdout line] w). cbv beta iota.
    unfold open_read_at, open_read. cbn [files logged].
    destruct (files w !! path) as [text|]; [|done]. cbn [read_text text_files].
    destruct (json_loads text) as [new_keys|]; [|done]. cbn.
    by destruct (py_merge keyring new_keys). }
  split; [intros Hfile|intros text Hfile Hjson]; rewrite Hbody, Hfile; [done|].
  by rewrite Hjson.
Qed.

(** ** What [list] shows after [add] *)

(** X19. [add] of a new label, then [list]: when the json module decodes
    the keyring that [add] wrote, [list] prints the header, the lines of the
    entries that were there, in their order, and last the line of the new
    entry. *)
Theorem add_then_list (label addr : string) d w :
  stored_keyring w = PyDict d →
  dict_get (PyStr label) d = None →
  json_loads (json_dumps (PyDict (d ++ [(PyStr label, PyStr addr)]))) =
    Some (PyDict (d ++ [(PyStr label, PyStr addr)])) →
  let w1 := (add_key [PyStr label; PyStr addr] [] w).2 in
  printed (list_keys [] [] w1).2 =
    printed w ++
    ("LABEL" +:+ TAB +:+ "ADDRESS") ::
    ((λ entry, py_format entry.1 +:+ TAB +:+ py_format entry.2) <$> d) ++
    [label +:+ TAB +:+ addr].
Proof.
  intros Hw Hd Hjson. cbv zeta. rewrite (add_key_new _ _ _ _ Hw Hd). cbn [snd].
  unfold list_keys. rewrite open_keyring_run.
  change ([] ++ ?l) with l. rewrite call_keyring, (stored_keyring_saved _ _ Hjson).
  rewrite list_keys_body_run. cbn [snd]. rewrite logged_logged.
  change (printed (logged ?es (saved ?k ?w0))) with (printed (logged es w0)).
  rewrite logged_logged, printed_logged. f_equal.
  unfold mkdir.
  change (omap ?f ([Subprocess ?a] ++ [Subprocess ?b] ++ Stdout ?h :: ?l))
    with (h :: omap f l).
  f_equal. rewrite fmap_app, omap_app. f_equal.
  clear Hw Hd Hjson. induction d as [|entry d IH]; [done|].
  rewrite !fmap_cons. change (omap ?f (list_line ?e :: ?l))
    with ((py_format e.1 +:+ TAB +:+ py_format e.2) :: omap f l).
  by rewrite IH.
Qed.
End Further.

(** ** Text files and the disk

    The statements above are about a machine on which every file is a
    text.  Here they are carried to a disk: when every file is a regular
    file that holds a text, the shell changes no file and the decoder
    raises [JSONDecodeError] only, every function of the program does on
    the disk what it does on the text files.  The proof follows the
    program: each primitive of the machine simulates itself, and so does
    what is built from them by sequencing, [try], loops and calls.  What
    the program writes must be a text, which it is when the encoder
    writes ASCII. *)

Section Simulation.
Context `{Platform}.
Hypothesis dumps_text : ∀ v, Utf8.text (json_dumps v) = true.
#[local] Existing Instance quiet_disk.
























End Simulation.


(** ** The further properties on the sample machine *)

Section FurtherWitnesses.
#[local] Existing Instance Sample.platform.

Ltac not_listed :=
  let Hin := fresh "Hin" in
  let Heq := fresh "Heq" in
  intros Hin;
  repeat (apply elem_of_cons in Hin as [Heq|Hin]; [discriminate Heq|]);
  by apply elem_of_nil in Hin.

Ltac distinct := repeat (apply NoDup_cons; split; [not_listed|]); apply NoDup_nil_2.

Lemma add_new_label_witness :
  let w := Sample.with_keyring (Sample.keyring [("web", "ops@example.org")]) in
  let keyring :=
    PyDict [(PyStr "web", PyStr "ops@example.org"); (PyStr "db", PyStr "10.0.0.1")] in
  add_key [PyStr "db"; PyStr "10.0.0.1"] [] w = (Ok keyring, saved keyring (logged [mkdir] w)) ∧
  stored_keyring (saved keyring (logged [mkdir] w)) = keyring.
Proof.
  cbv zeta. split; [|vm_compute; reflexivity].
  refine (proj1 (add_new_label "db" (PyStr "10.0.0.1")
                   [(PyStr "web", PyStr "ops@example.org")]
                   (Sample.with_keyring (Sample.keyring [("web", "ops@example.org")])) _ _));
    [vm_compute; reflexivity | reflexivity].
Defined.

Lemma remove_registered_label_witness :
  let w := Sample.with_keyring
             (Sample.keyring [("web", "ops@example.org"); ("db", "10.0.0.1")]) in
  let keyring := PyDict [(PyStr "db", PyStr "10.0.0.1")] in
  remove_key [PyStr "web"] [] w = (Ok keyring, saved keyring (logged [mkdir] w)).
Proof.
  cbv zeta.
  refine (proj1 (remove_registered_label "web" (PyStr "ops@example.org")
                   [(PyStr "web", PyStr "ops@example.org"); (PyStr "db", PyStr "10.0.0.1")]
                   (Sample.with_keyring
                      (Sample.keyring [("web", "ops@example.org"); ("db", "10.0.0.1")]))
                   _ _ _));
    [vm_compute; reflexivity | | reflexivity].
  distinct.
Defined.

Lemma add_then_remove_witness :
  let w := Sample.with_keyring (Sample.keyring [("web", "ops@example.org")]) in
  let keyring := PyDict [(PyStr "web", PyStr "ops@example.org")] in
  remove_key [PyStr "db"] [] (add_key [PyStr "db"; PyStr "10.0.0.1"] [] w).2 =
    (Ok keyring, saved keyring (logged [mkdir; mkdir] w)).
Proof.
  cbv zeta.
  refine (add_then_remove "db" (PyStr "10.0.0.1")
            [(PyStr "web", PyStr "ops@example.org")]
            (Sample.with_keyring (Sample.keyring [("web", "ops@example.org")])) _ _ _);
    [vm_compute; reflexivity | reflexivity | vm_compute; reflexivity].
Defined.

Lemma add_twice_witness :
  let w := Sample.fresh in
  let keyring := PyDict [(PyStr "db", PyStr "x")] in
  add_key [PyStr "db"; PyStr "x"] [] (add_key [PyStr "db"; PyStr "x"] [] w).2 =
    (Ok keyring,
     saved keyring
       (logged [mkdir; mkdir; Stdout "The label db is already registered!"] w)).
Proof.
  cbv zeta.
  refine (add_twice "db" (PyStr "x") (PyStr "x") [] Sample.fresh _ _ _);
    [reflexivity | reflexivity | vm_compute; reflexivity].
Defined.

Lemma rename_unregistered_label_witness :
  let w := Sample.with_keyring (Sample.keyring [("db", "10.0.0.1")]) in
  main ["sw"; "rename"; "web"; "www"] w = (Raise (KeyError (PyStr "web")), logged [mkdir] w).
Proof.
  cbv zeta.
  refine (proj2 (rename_unregistered_label "web" "www" [(PyStr "db", PyStr "10.0.0.1")]
                   "sw" (Sample.with_keyring (Sample.keyring [("db", "10.0.0.1")])) _ _));
    [vm_compute; reflexivity | reflexivity].
Defined.

Lemma list_keys_prints_entries_witness :
  let w := Sample.with_keyring
             (Sample.keyring [("web", "ops@example.org"); ("db", "10.0.0.1")]) in
  printed (list_keys [] [] w).2 =
    ["LABEL" +:+ TAB +:+ "ADDRESS"; "web" +:+ TAB +:+ "ops@example.org";
     "db" +:+ TAB +:+ "10.0.0.1"].
Proof.
  cbv zeta.
  destruct (list_keys_prints_entries
              [(PyStr "web", PyStr "ops@example.org"); (PyStr "db", PyStr "10.0.0.1")]
              (Sample.with_keyring
                 (Sample.keyring [("web", "ops@example.org"); ("db", "10.0.0.1")])))
    as [Hlist _]; [vm_compute; reflexivity|].
  rewrite Hlist. reflexivity.
Defined.

Lemma export_keyring_prints_keyring_witness :
  let w := Sample.with_keyring (Sample.keyring [("db", "10.0.0.1")]) in
  stored_keyring (Sample.with_text (json_dumps (stored_keyring w))) = stored_keyring w.
Proof.
  cbv zeta.
  refine (proj2 (export_keyring_prints_keyring
                   (Sample.with_keyring (Sample.keyring [("db", "10.0.0.1")])))
            (Sample.with_text
               (json_dumps (stored_keyring
                              (Sample.with_keyring (Sample.keyring [("db", "10.0.0.1")])))))
            _ _);
    [vm_compute; reflexivity | vm_compute; reflexivity].
Defined.

Lemma main_prints_usage_witness :
  main ["sw"; "delete"; "db"] Sample.fresh =
    (Raise SystemExit, logged (Stdout <$> usage_lines) Sample.fresh).
Proof.
  refine (proj2 (main_prints_usage "sw" Sample.fresh) "delete" ["db"] _).
  not_listed.
Defined.

Lemma none_keyring_stops_commands_witness :
  let w := Sample.with_text "null" in
  add_key [PyStr "db"; PyStr "10.0.0.1"] [] w =
    (Raise (TypeError NotIterable), logged [mkdir] w).
Proof.
  cbv zeta.
  refine (proj1 (none_keyring_stops_commands (Sample.with_text "null") _)
            CAdd (PyStr "db") [PyStr "10.0.0.1"]).
  vm_compute; reflexivity.
Defined.

Lemma surplus_argument_raises_witness :
  let w := Sample.with_keyring (Sample.keyring [("db", "10.0.0.1")]) in
  ssh_connect [PyStr "db"; PyStr "uptime"] [] w =
    (Raise (TypeError (MultipleValues "keyring")), logged [mkdir] w).
Proof.
  cbv zeta.
  refine (surplus_argument_raises CConnect (PyStr "db") [PyStr "uptime"]
            (Sample.with_keyring (Sample.keyring [("db", "10.0.0.1")])) _ _);
    [vm_compute; reflexivity | simpl; lia].
Defined.

Lemma ssh_started_only_for_registered_label_witness :
  let w := Sample.with_keyring (Sample.keyring [("db", "10.0.0.1")]) in
  ∃ (label : string) addr,
    ["db"] = [label] ∧ dict_get (PyStr label) [(PyStr "db", PyStr "10.0.0.1")] = Some addr.
Proof.
  cbv zeta.
  refine (proj1 (ssh_started_only_for_registered_label ["db"]
                   [(PyStr "db", PyStr "10.0.0.1")]
                   (Sample.with_keyring (Sample.keyring [("db", "10.0.0.1")])) _) _);
    vm_compute; reflexivity.
Defined.

Lemma main_changes_only_keyring_file_witness :
  let machine := Sample.tracing in
  let w := {| files := {[ "notes.txt" := "keep" ]}; events := [] |} in
  let w' := (main ["sw"; "run"; "db"; "uptime"]
               (main ["sw"; "add"; "db"; "admin@10.0.0.1"] w).2).2 in
  started w w' =
    ["mkdir -p /home/user/.sw"; "mkdir -p /home/user/.sw"; "ssh -t admin@10.0.0.1 uptime"] ∧
  files w' !! "ssh.log" = Some "ssh -t admin@10.0.0.1 uptime" ∧
  files w' !! "notes.txt" = Some "keep".
Proof.
  cbv zeta. split; [vm_compute; reflexivity|]. split; [vm_compute; reflexivity|].
  assert (∀ cmd, spares (machine := Sample.tracing) "notes.txt" cmd) as Hspares.
  { intros cmd fs. cbn [shell Sample.tracing].
    destruct (String.prefix "ssh " cmd); [by apply lookup_insert_ne|done]. }
  destruct (main_changes_only_keyring_file (machine := Sample.tracing) "notes.txt"
              ["sw"; "run"; "db"; "uptime"]
              (main (machine := Sample.tracing) ["sw"; "add"; "db"; "admin@10.0.0.1"]
                 {| files := {[ "notes.txt" := "keep" ]}; events := [] |}).2)
    as [_ Hrun]; [vm_compute; discriminate|].
  rewrite Hrun; [|apply Forall_forall; intros cmd _; apply Hspares].
  destruct (main_changes_only_keyring_file (machine := Sample.tracing) "notes.txt"
              ["sw"; "add"; "db"; "admin@10.0.0.1"]
              {| files := {[ "notes.txt" := "keep" ]}; events := [] |})
    as [_ Hadd]; [vm_compute; discriminate|].
  rewrite Hadd; [reflexivity|apply Forall_forall; intros cmd _; apply Hspares].
Defined.


Lemma import_body_merge_is_right_biased_witness :
  let w := {| files := {[ "in.json" := json_dumps (Sample.keyring [("x", "1")]) ]};
              events := [] |} in
  ∃ merged,
    import_keyring_body []
      [("keyring", Sample.keyring [("x", "0"); ("y", "2")]); ("filepath", PyStr "in.json")] w =
      (Ok (PyDict merged),
       logged [Stdout "Merging current keyring and external keyring..."] w) ∧
    dict_get (PyStr "x") merged = Some (PyStr "1") ∧
    dict_get (PyStr "y") merged = Some (PyStr "2").
Proof.
  cbv zeta.
  destruct (import_body_merge_is_right_biased
              [(PyStr "x", PyStr "0"); (PyStr "y", PyStr "2")] [(PyStr "x", PyStr "1")]
              "in.json" (json_dumps (Sample.keyring [("x", "1")]))
              {| files := {[ "in.json" := json_dumps (Sample.keyring [("x", "1")]) ]};
                 events := [] |})
    as (merged & Hrun & Hget).
  - reflexivity.
  - vm_compute; reflexivity.
  - distinct.
  - distinct.
  - exists merged. split; [exact Hrun|]. split; [exact (Hget "x") | exact (Hget "y")].
Defined.

Lemma import_body_errors_propagate_witness :
  import_keyring_body []
    [("keyring", PyDict []); ("filepath", PyStr "missing.json")] Sample.fresh =
    (Raise (FileNotFoundError "missing.json"),
     logged [Stdout "Merging current keyring and external keyring..."] Sample.fresh).
Proof.
  refine (proj1 (import_body_errors_propagate (PyDict []) "missing.json" Sample.fresh) _).
  reflexivity.
Defined.

Lemma add_then_list_witness :
  printed (list_keys [] [] (add_key [PyStr "db"; PyStr "10.0.0.1"] [] Sample.fresh).2).2 =
    ["LABEL" +:+ TAB +:+ "ADDRESS"; "db" +:+ TAB +:+ "10.0.0.1"].
Proof.
  refine (add_then_list "db" "10.0.0.1" [] Sample.fresh _ _ _);
    [reflexivity | reflexivity | vm_compute; reflexivity].
Defined.


End FurtherWitnesses.
